(** * Conecta Saude: the credit ledger of [server.js]

    A shallow embedding of the request handlers of [server.js] around the
    [credits] column ([POST /auth/login], [POST /ai/generate],
    [POST /create_preference]), of [POST /auth/register] and the
    [authenticateToken] middleware, and of the SQL statements they issue,
    followed by the properties of the credit ledger.

    Conventions.
    - Instants ([Date] objects) are integers: milliseconds since the epoch,
      as [Date.prototype.valueOf] gives them.  [Math.ceil(x / 86400000)] on
      such integers is the integer ceiling; the double-precision quotient
      agrees with it for every pair of dates less than 2^26 days apart.
    - [credits], [age], [cost] are integers ([Z]); SQL [NULL] / JS [null] is
      [None] where the code's behaviour on it is modelled.
    - A table is the list of its rows.  [WHERE] is [filter], [UPDATE ... SET]
      is [map] over the matching rows, [INSERT] appends a row, and
      [rows[0]] is the head of the selected list.  No uniqueness of [id] or
      [email] is assumed.
    - Columns no handler below computes with ([name], [cpf], [sex], [role];
      the serial [id] and creation time of a transaction) are left out.
    - The schema is not part of the sources: a statement fails only where
      [db_fails] says so, and no constraint on [credits] is assumed. *)

From Stdlib Require Import ZArith List String Bool Lia.
Import ListNotations.

Local Open Scope string_scope.
Local Open Scope list_scope.
Local Open Scope Z_scope.

(** ** Tables *)

Record user := mkUser {
  id : Z;
  email : string;
  password_hash : string;
  age : option Z;
  credits : Z;
  last_recharge_date : option Z
}.

Record transaction := mkTransaction {
  user_id : Z;
  amount : Z;
  description : string;
  type : string
}.

Record database := mkDatabase {
  users : list user;
  transactions : list transaction
}.

(** ** SQL statements of the handlers *)

(** [SELECT * FROM users WHERE email = $1] *)
Definition select_users_by_email (db : database) (e : string) : list user :=
  filter (fun u => String.eqb (email u) e) (users db).

(** [SELECT credits FROM users WHERE id = $1] *)
Definition select_credits (db : database) (i : Z) : list Z :=
  map credits (filter (fun u => id u =? i) (users db)).

(** [UPDATE users SET credits = 100, last_recharge_date = CURRENT_DATE
     WHERE id = $1] *)
Definition update_recharge (current_date : Z) (i : Z) (db : database) : database :=
  {| users :=
       map (fun u =>
              if id u =? i
              then {| id := id u; email := email u;
                      password_hash := password_hash u; age := age u;
                      credits := 100;
                      last_recharge_date := Some current_date |}
              else u) (users db);
     transactions := transactions db |}.

(** [UPDATE users SET credits = credits - $1 WHERE id = $2] *)
Definition update_debit (cost : Z) (i : Z) (db : database) : database :=
  {| users :=
       map (fun u =>
              if id u =? i
              then {| id := id u; email := email u;
                      password_hash := password_hash u; age := age u;
                      credits := credits u - cost;
                      last_recharge_date := last_recharge_date u |}
              else u) (users db);
     transactions := transactions db |}.

(** [INSERT INTO transactions (user_id, amount, description, type)
     VALUES ($1, $2, $3, 'usage')] *)
Definition insert_usage (i : Z) (amt : Z) (descr : string) (db : database) : database :=
  {| users := users db;
     transactions :=
       transactions db ++
       [ {| user_id := i; amount := amt; description := descr; type := "usage" |} ] |}.

(** ** The world a handler runs in *)

(** The calls a handler makes to the connection pool. *)
Inductive dbcall :=
| SelectUserByEmail | UpdateRecharge          (* /auth/login, on [pool] *)
| SelectCredits                               (* /ai/generate, on [pool] *)
| Connect | Begin | UpdateDebit | InsertUsage | Commit | Rollback | Release.
                                              (* /ai/generate, on [clientDb] *)

Inductive event :=
| Query (c : dbcall)
| Fetch (prompt : string).

(** What the collaborators answer during one run of a handler. *)
Record environment := mkEnvironment {
  today : Z;                                  (* [new Date()] *)
  CURRENT_DATE : Z;                           (* the database's [CURRENT_DATE] *)
  toLowerCase_trim : string -> string;        (* [s.toLowerCase().trim()] *)
  bcrypt_compare : string -> string -> bool;
  jwt_sign : Z -> option string;              (* [None]: [jwt.sign] throws *)
  gemini : string -> option string;
    (* [data.candidates?.[0]?.content?.parts?.[0]?.text] for the prompt sent;
       [None] when [fetch] or [response.json()] throws or the path is
       undefined *)
  JSON_parse : string -> option string;
    (* [JSON.parse] of the text with its code fences removed *)
  mp_client : bool;                           (* [MP_ACCESS_TOKEN] is set *)
  mp_preference_create : Z -> Z -> option string;
    (* [preference.create] for [metadata: { user_id, credits_to_add }];
       the id of the preference, [None] when it throws *)
  db_fails : dbcall -> bool                   (* the calls that reject *)
}.

Inductive exn :=
| DbError (c : dbcall)
| TypeError
| JwtError
| Error (message : string).

(** The committed tables, the uncommitted copy of the transaction open on
    [clientDb] (if any), and the calls made so far, latest last. *)
Record state := mkState {
  store : database;
  txn : option database;
  log : list event
}.

Definition initial (db : database) : state :=
  {| store := db; txn := None; log := [] |}.

(** ** A state and exception monad for [async] handlers *)

Inductive result (A : Type) :=
| Ok (a : A)
| Throw (e : exn).
Arguments Ok {A} a.
Arguments Throw {A} e.

Definition M (A : Type) : Type := state -> result A * state.

Definition ret {A} (a : A) : M A := fun s => (Ok a, s).

Definition throw {A} (e : exn) : M A := fun s => (Throw e, s).

Definition bind {A B} (m : M A) (k : A -> M B) : M B :=
  fun s => match m s with
           | (Ok a, s') => k a s'
           | (Throw e, s') => (Throw e, s')
           end.

Notation "x <- m ;; k" := (bind m (fun x => k))
  (at level 61, m at next level, right associativity).
Notation "m ;;; k" := (bind m (fun _ => k))
  (at level 61, right associativity).

(** [try { m } catch (e) { h e }] *)
Definition try_catch {A} (m : M A) (h : exn -> M A) : M A :=
  fun s => match m s with
           | (Ok a, s') => (Ok a, s')
           | (Throw e, s') => h e s'
           end.

(** [try { m } catch (e) { h e } finally { f }] *)
Definition try_catch_finally {A} (m : M A) (h : exn -> M A) (f : M unit) : M A :=
  fun s => match try_catch m h s with
           | (r, s') => match f s' with
                        | (Ok _, s'') => (r, s'')
                        | (Throw e, s'') => (Throw e, s'')
                        end
           end.

Definition record (ev : event) (s : state) : state :=
  {| store := store s; txn := txn s; log := log s ++ [ev] |}.

(** [await pool.query(...)] of a [SELECT]: reads the committed tables. *)
Definition pool_select {A} (env : environment) (c : dbcall)
    (q : database -> list A) : M (list A) :=
  fun s => let s' := record (Query c) s in
           if db_fails env c then (Throw (DbError c), s')
           else (Ok (q (store s')), s').

(** [await pool.query(...)] of an [UPDATE]: autocommit. *)
Definition pool_update (env : environment) (c : dbcall)
    (f : database -> database) : M unit :=
  fun s => let s' := record (Query c) s in
           if db_fails env c then (Throw (DbError c), s')
           else (Ok tt, {| store := f (store s'); txn := txn s'; log := log s' |}).

(** [await pool.connect()] and [clientDb.release()] *)
Definition pool_connect (env : environment) : M unit :=
  fun s => let s' := record (Query Connect) s in
           if db_fails env Connect then (Throw (DbError Connect), s')
           else (Ok tt, s').

Definition client_release : M unit :=
  fun s => (Ok tt, record (Query Release) s).

(** [await clientDb.query('BEGIN')] *)
Definition client_begin (env : environment) : M unit :=
  fun s => let s' := record (Query Begin) s in
           if db_fails env Begin then (Throw (DbError Begin), s')
           else (Ok tt, {| store := store s'; txn := Some (store s'); log := log s' |}).

(** [await clientDb.query(...)] of a write: on the open transaction's copy,
    or committed at once when none is open. *)
Definition client_write (env : environment) (c : dbcall)
    (f : database -> database) : M unit :=
  fun s => let s' := record (Query c) s in
           if db_fails env c then (Throw (DbError c), s')
           else match txn s' with
                | Some w =>
                    (Ok tt, {| store := store s'; txn := Some (f w);
                               log := log s' |})
                | None =>
                    (Ok tt, {| store := f (store s'); txn := None;
                               log := log s' |})
                end.

(** [await clientDb.query('COMMIT')] *)
Definition client_commit (env : environment) : M unit :=
  fun s => let s' := record (Query Commit) s in
           if db_fails env Commit then (Throw (DbError Commit), s')
           else match txn s' with
                | Some w => (Ok tt, {| store := w; txn := None; log := log s' |})
                | None => (Ok tt, s')
                end.

(** [await clientDb.query('ROLLBACK')] *)
Definition client_rollback (env : environment) : M unit :=
  fun s => let s' := record (Query Rollback) s in
           if db_fails env Rollback then (Throw (DbError Rollback), s')
           else (Ok tt, {| store := store s'; txn := None; log := log s' |}).

(** ** Recharge rule of [/auth/login] *)

Definition MS_PER_DAY : Z := 1000 * 60 * 60 * 24.

(** [new Date(v)] of a [DATE] column: [new Date(null)] is the epoch. *)
Definition new_Date (v : option Z) : Z :=
  match v with
  | Some t => t
  | None => 0
  end.

(** [Math.ceil(a / b)] for [b > 0] *)
Definition Math_ceil_div (a b : Z) : Z := - ((- a) / b).

(** [Math.ceil(Math.abs(today - last) / (1000 * 60 * 60 * 24))] *)
Definition diffDays (today last : Z) : Z :=
  Math_ceil_div (Z.abs (today - last)) MS_PER_DAY.

(** [user.age > 60] and [user.age <= 60]; [null] compares as [0]. *)
Definition age_gt_60 (a : option Z) : bool :=
  match a with
  | Some n => 60 <? n
  | None => false
  end.

Definition age_le_60 (a : option Z) : bool :=
  match a with
  | Some n => n <=? 60
  | None => true
  end.

(** [(user.age > 60 && diffDays >= 180) || (user.age <= 60 && diffDays >= 365)] *)
Definition recharge_due (a : option Z) (d : Z) : bool :=
  (age_gt_60 a && (180 <=? d)) || (age_le_60 a && (365 <=? d)).

(** ** Requests and responses *)

Record login_body := mkLoginBody {
  body_email : string;
  body_password : string
}.

(** [req.user.id] as [authenticateToken] leaves it, and [req.body]. *)
Record generate_request := mkGenerateRequest {
  req_user_id : Z;
  prompt : string;
  cost : Z;
  isJson : bool
}.

Inductive payload :=
| Text (txt : string)
| Parsed (json : string).

Inductive response :=
| status_json (code : Z) (error : string)
    (* [res.status(code).json({ error })] *)
| login_json (token : string) (u : user) (recharged_message : option string)
    (* [res.json({ token, user: { ...user, password_hash: undefined,
                                  recharged_message } })] *)
| generate_json (result : payload) (new_credits : Z)
    (* [res.json({ result, new_credits })] *)
| preference_json (preference_id : string).
    (* [res.json({ id: result.id })] *)

(** ** [POST /auth/login] *)

(** [user.credits = 100] on the row object read by the handler. *)
Definition set_credits_100 (u : user) : user :=
  {| id := id u; email := email u; password_hash := password_hash u;
     age := age u; credits := 100;
     last_recharge_date := last_recharge_date u |}.

(** [{ ...user, password_hash: undefined }] *)
Definition without_password_hash (u : user) : user :=
  {| id := id u; email := email u; password_hash := "";
     age := age u; credits := credits u;
     last_recharge_date := last_recharge_date u |}.

Definition login (env : environment) (body : login_body) : M response :=
  try_catch
    (rows <- pool_select env SelectUserByEmail
               (fun db => select_users_by_email db
                            (toLowerCase_trim env (body_email body)));;
     match rows with
     | [] => ret (status_json 400 "Usuário não encontrado.")
     | user :: _ =>
         if bcrypt_compare env (body_password body) (password_hash user) then
           let last := new_Date (last_recharge_date user) in
           let diff := diffDays (today env) last in
           ur <- (if recharge_due (age user) diff
                  then pool_update env UpdateRecharge
                         (update_recharge (CURRENT_DATE env) (id user));;;
                       ret (set_credits_100 user, true)
                  else ret (user, false));;
           match jwt_sign env (id user) with
           | None => throw JwtError
           | Some token =>
               ret (login_json token (without_password_hash (fst ur))
                      (if snd ur then Some "Sua cota SUS foi renovada!" else None))
           end
         else ret (status_json 403 "Senha incorreta.")
     end)
    (fun _ => ret (status_json 500 "Erro interno.")).

(** ** [POST /ai/generate] *)

Definition newline : string := String (Ascii.ascii_of_nat 10) EmptyString.

(** [isJson ? prompt + "\nResponda APENAS JSON." : prompt] *)
Definition prompt_sent (req : generate_request) : string :=
  if isJson req
  then (prompt req ++ newline ++ "Responda APENAS JSON.")%string
  else prompt req.

(** [!txt] *)
Definition falsy (txt : string) : bool :=
  match txt with
  | EmptyString => true
  | String _ _ => false
  end.

(** The [fetch] of the generation API up to [if (!txt) throw ...]. *)
Definition fetch_text (env : environment) (p : string) : M string :=
  fun s => let s' := record (Fetch p) s in
           match gemini env p with
           | Some txt =>
               if falsy txt then (Throw (Error "IA não retornou texto."), s')
               else (Ok txt, s')
           | None => (Throw (Error "IA não retornou texto."), s')
           end.

(** [finalResult]: the parsed JSON when asked for and parseable, else the
    text. *)
Definition finalResult (env : environment) (req : generate_request)
    (txt : string) : payload :=
  if isJson req
  then match JSON_parse env txt with
       | Some v => Parsed v
       | None => Text txt
       end
  else Text txt.

(** The block under [// Debitar]. *)
Definition debitar (env : environment) (req : generate_request)
    (read_credits : Z) (res : payload) : M response :=
  pool_connect env;;;
  try_catch_finally
    (client_begin env;;;
     client_write env UpdateDebit (update_debit (cost req) (req_user_id req));;;
     client_write env InsertUsage
       (insert_usage (req_user_id req) (- cost req) "Uso IA");;;
     client_commit env;;;
     ret (generate_json res (read_credits - cost req)))
    (fun e => client_rollback env;;; throw e)
    client_release.

Definition ai_generate (env : environment) (req : generate_request) : M response :=
  userRes <- pool_select env SelectCredits
               (fun db => select_credits db (req_user_id req));;
  match userRes with
  | [] => throw TypeError                      (* [userRes.rows[0].credits] *)
  | read_credits :: _ =>
      if read_credits <? cost req
      then ret (status_json 402 "Créditos insuficientes.")
      else
        try_catch
          (txt <- fetch_text env (prompt_sent req);;
           debitar env req read_credits (finalResult env req txt))
          (fun _ => ret (status_json 500 "Erro ao processar IA."))
  end.

(** A handler run from start to end on committed tables [db]. *)
Definition run {A} (m : M A) (db : database) : result A * state :=
  m (initial db).

Definition response_of {A} (r : result A * state) : result A := fst r.
Definition db_after {A} (r : result A * state) : database := store (snd r).
Definition calls_of {A} (r : result A * state) : list event := log (snd r).

(** ** [POST /create_preference] *)

(** The item's [description], [price] and [quantity] only reach the payment
    provider; the handler issues no SQL statement. *)
Record preference_request := mkPreferenceRequest {
  pref_user_id : Z;
  creditsToAdd : Z
}.

Definition create_preference (env : environment) (req : preference_request)
    : M response :=
  if negb (mp_client env)
  then ret (status_json 500 "Mercado Pago não configurado no servidor.")
  else
    try_catch
      (match mp_preference_create env (pref_user_id req) (creditsToAdd req) with
       | Some pid => ret (preference_json pid)
       | None => throw (Error "MP")
       end)
      (fun _ => ret (status_json 500 "Erro MP")).

(** ** Interleaved requests

    A handler gives up control at each [await].  [/ai/generate] is cut where
    the other requests can observe a difference: after the credit check and
    after the generation call.  The block under [// Debitar] runs in one
    piece, as the transaction isolates it. *)

Module Concurrent.

Inductive pc :=
| AtSelect                                      (* request received *)
| AtFetch (read_credits : Z)                    (* check passed *)
| AtDebit (read_credits : Z) (res : payload)    (* text received *)
| Finished (r : result response).

Definition advance (env : environment) (req : generate_request) (p : pc)
    (s : state) : pc * state :=
  match p with
  | AtSelect =>
      match pool_select env SelectCredits
              (fun db => select_credits db (req_user_id req)) s with
      | (Ok [], s') => (Finished (Throw TypeError), s')
      | (Ok (read_credits :: _), s') =>
          if read_credits <? cost req
          then (Finished (Ok (status_json 402 "Créditos insuficientes.")), s')
          else (AtFetch read_credits, s')
      | (Throw e, s') => (Finished (Throw e), s')
      end
  | AtFetch read_credits =>
      match fetch_text env (prompt_sent req) s with
      | (Ok txt, s') => (AtDebit read_credits (finalResult env req txt), s')
      | (Throw _, s') =>
          (Finished (Ok (status_json 500 "Erro ao processar IA.")), s')
      end
  | AtDebit read_credits res =>
      match debitar env req read_credits res s with
      | (Ok r, s') => (Finished (Ok r), s')
      | (Throw _, s') =>
          (Finished (Ok (status_json 500 "Erro ao processar IA.")), s')
      end
  | Finished r => (Finished r, s)
  end.

Record thread := mkThread {
  th_env : environment;
  th_req : generate_request;
  th_pc : pc
}.

Definition spawn (env : environment) (req : generate_request) : thread :=
  {| th_env := env; th_req := req; th_pc := AtSelect |}.

(** Let request number [i] run up to its next [await]. *)
Fixpoint step_thread (i : nat) (ths : list thread) (s : state)
    : list thread * state :=
  match ths, i with
  | [], _ => ([], s)
  | t :: rest, O =>
      let (p, s') := advance (th_env t) (th_req t) (th_pc t) s in
      ({| th_env := th_env t; th_req := th_req t; th_pc := p |} :: rest, s')
  | t :: rest, S j =>
      let (rest', s') := step_thread j rest s in
      (t :: rest', s')
  end.

Fixpoint run_schedule (sched : list nat) (ths : list thread) (s : state)
    : list thread * state :=
  match sched with
  | [] => (ths, s)
  | i :: sched' =>
      let (ths', s') := step_thread i ths s in
      run_schedule sched' ths' s'
  end.

(** Each request runs to its end before the next one starts. *)
Definition one_after_another (n : nat) : list nat :=
  flat_map (fun i => [i; i; i]) (seq 0 n).

(** Every request passes its credit check before any of them goes on. *)
Definition all_check_first (n : nat) : list nat :=
  seq 0 n ++ seq 0 n ++ seq 0 n.

Definition succeeded (t : thread) : bool :=
  match th_pc t with
  | Finished (Ok (generate_json _ _)) => true
  | _ => false
  end.

Definition insufficient (t : thread) : bool :=
  match th_pc t with
  | Finished (Ok (status_json 402 _)) => true
  | _ => false
  end.

Definition count (f : thread -> bool) (ths : list thread) : nat :=
  List.length (filter f ths).

End Concurrent.

(** ** Vocabulary of the properties *)

(** The generation call gave a text the handler accepts. *)
Definition usable_text (env : environment) (req : generate_request) : bool :=
  match gemini env (prompt_sent req) with
  | Some txt => negb (falsy txt)
  | None => false
  end.

(** None of the calls of the [// Debitar] block up to [COMMIT] rejects. *)
Definition debit_calls_ok (env : environment) : bool :=
  negb (db_fails env Connect) && negb (db_fails env Begin) &&
  negb (db_fails env UpdateDebit) && negb (db_fails env InsertUsage) &&
  negb (db_fails env Commit).

(** Balance and transaction rows after a committed debit. *)
Definition debited (req : generate_request) (db : database) : database :=
  insert_usage (req_user_id req) (- cost req) "Uso IA"
    (update_debit (cost req) (req_user_id req) db).

(** The sum of the [amount]s of an account's transaction rows. *)
Definition ledger_sum (db : database) (i : Z) : Z :=
  fold_right Z.add 0
    (map amount (filter (fun t => user_id t =? i) (transactions db))).

(** Every stored balance is the starting grant plus the account's
    transaction amounts. *)
Definition ledger_consistent (grant : Z) (db : database) : Prop :=
  Forall (fun u => credits u = grant + ledger_sum db (id u)) (users db).

(** The window in days as the specification words it. *)
Definition window (a : option Z) : Z :=
  match a with
  | Some n => if 60 <? n then 180 else 365
  | None => 365
  end.

(** Every call [/ai/generate] can make. *)
Definition generate_calls (req : generate_request) : list event :=
  [Query SelectCredits; Fetch (prompt_sent req); Query Connect; Query Begin;
   Query UpdateDebit; Query InsertUsage; Query Commit; Query Rollback;
   Query Release].

(** ** Sample inputs *)

Definition collaborators (now : Z) (text : option string)
    (fails : dbcall -> bool) : environment :=
  {| today := now;
     CURRENT_DATE := now;
     toLowerCase_trim := fun s => s;
     bcrypt_compare := String.eqb;
     jwt_sign := fun _ => Some "jwt";
     gemini := fun _ => text;
     JSON_parse := fun _ => None;
     mp_client := false;
     mp_preference_create := fun _ _ => None;
     db_fails := fails |}.

Definition no_failure (c : dbcall) : bool := false.

(** Two hundred days after the epoch, the generation API answers. *)
Definition env_ok : environment :=
  collaborators (200 * MS_PER_DAY) (Some "ola") no_failure.

(** The same, but the generation API gives no text. *)
Definition env_no_text : environment :=
  collaborators (200 * MS_PER_DAY) None no_failure.

(** A user of 70 years last recharged at the epoch. *)
Definition ana (balance : Z) : user :=
  {| id := 1; email := "ana@sus.br"; password_hash := "segredo";
     age := Some 70; credits := balance; last_recharge_date := Some 0 |}.

Definition account (balance : Z) : database :=
  {| users := [ana balance]; transactions := [] |}.

(** Balance 40 after one usage of 60 out of a grant of 100. *)
Definition account_used : database :=
  {| users := [ana 40];
     transactions :=
       [ {| user_id := 1; amount := -60; description := "Uso IA";
            type := "usage" |} ] |}.

Definition consume (n : Z) : generate_request :=
  {| req_user_id := 1; prompt := "hi"; cost := n; isJson := false |}.

Definition ana_logs_in : login_body :=
  {| body_email := "ana@sus.br"; body_password := "segredo" |}.

(** [n] requests of the same cost on ana's account, all answered by the
    generation API. *)
Definition requests (n : nat) (c : Z) : list Concurrent.thread :=
  repeat (Concurrent.spawn env_ok (consume c)) n.

(** The number of successes and of 402 answers, ana's stored balance and the
    transaction amounts once the schedule has run. *)
Definition outcome (sched : list nat) (ths : list Concurrent.thread)
    (db : database) : nat * nat * list Z * list Z :=
  let (ths', s) := Concurrent.run_schedule sched ths (initial db) in
  (Concurrent.count Concurrent.succeeded ths',
   Concurrent.count Concurrent.insufficient ths',
   select_credits (store s) 1,
   map amount (filter (fun t => String.eqb (type t) "usage")
                 (transactions (store s)))).

(** The handler answered [{ result, new_credits }]. *)
Definition generated (r : result response * state) : bool :=
  match fst r with
  | Ok (generate_json _ _) => true
  | _ => false
  end.

(** ** [authenticateToken] *)

Definition space : Ascii.ascii := Ascii.ascii_of_nat 32.

(** [s.split(' ')] *)
Fixpoint split_space (s : string) : list string :=
  match s with
  | EmptyString => [EmptyString]
  | String c rest =>
      if Ascii.eqb c space
      then EmptyString :: split_space rest
      else match split_space rest with
           | field :: fields => String c field :: fields
           | [] => [String c EmptyString]
           end
  end.

(** [fields.join(' ')] *)
Fixpoint join_space (fields : list string) : string :=
  match fields with
  | [] => EmptyString
  | [field] => field
  | field :: fields' => (field ++ String space (join_space fields'))%string
  end.

(** [authHeader && authHeader.split(' ')[1]]; [None] is [undefined], and an
    empty header is itself the value of the conjunction. *)
Definition header_token (authHeader : option string) : option string :=
  match authHeader with
  | None => None
  | Some h => if falsy h then Some h else nth_error (split_space h) 1
  end.

Inductive middleware_outcome :=
| next (user_id : Z)
    (* [req.user = user; next()], with [user.id] *)
| sendStatus (code : Z)
    (* [res.sendStatus(code)]: the status text is sent; the [.json(...)]
       chained on it throws, the headers being sent *)
| reject (code : Z) (error : string).
    (* [res.status(code).json({ error })] *)

(** [jwt_verify token] is the [id] of the payload [jwt.verify] hands to its
    callback, [None] when it hands an error. *)
Definition authenticateToken (jwt_verify : string -> option Z)
    (authHeader : option string) : middleware_outcome :=
  match header_token authHeader with
  | None => sendStatus 401
  | Some token =>
      if falsy token then sendStatus 401
      else match jwt_verify token with
           | None => reject 403 "Token inválido"
           | Some user_id => next user_id
           end
  end.

(** A route registered as [app.post(path, authenticateToken, handler)]. *)
Inductive served :=
| by_middleware (o : middleware_outcome)
| by_handler (r : response).

Definition behind_authenticateToken (jwt_verify : string -> option Z)
    (authHeader : option string) (handler : Z -> M response) : M served :=
  match authenticateToken jwt_verify authHeader with
  | next user_id => r <- handler user_id;; ret (by_handler r)
  | o => ret (by_middleware o)
  end.

(** [req.body] of [/ai/generate]. *)
Record generate_body := mkGenerateBody {
  body_prompt : string;
  body_cost : Z;
  body_isJson : bool
}.

Definition post_ai_generate (jwt_verify : string -> option Z)
    (env : environment) (authHeader : option string) (body : generate_body)
    : M served :=
  behind_authenticateToken jwt_verify authHeader
    (fun user_id =>
       ai_generate env
         {| req_user_id := user_id; prompt := body_prompt body;
            cost := body_cost body; isJson := body_isJson body |}).

(** ** [POST /auth/register] *)

Record register_body := mkRegisterBody {
  reg_email : string;
  reg_password : string;
  reg_age : option Z
}.

(** What the database answers to the [INSERT INTO users]: the columns the
    statement does not give ([id], [credits], [last_recharge_date]) as the
    schema fills them, or the [code] of the error. *)
Inductive insert_answer :=
| inserted (new_id : Z) (default_credits : Z)
    (default_last_recharge_date : option Z)
| refused (code : string).

Record registrar := mkRegistrar {
  bcrypt_hash : string -> option string;      (* [None]: [bcrypt.hash] throws *)
  users_insert : insert_answer
}.

Inductive register_response :=
| register_json (new_id : Z) (stored_email : string) (granted_credits : Z)
    (* [res.json(newUser.rows[0])]: [RETURNING id, name, email, role, credits] *)
| register_error (code : Z) (error : string).

(** [INSERT INTO users (name, email, password_hash, cpf, age, sex)
     VALUES ($1, $2, $3, $4, $5, $6)] *)
Definition insert_user (row : user) (db : database) : database :=
  {| users := users db ++ [row]; transactions := transactions db |}.

(** The calls of this handler are not entered in the log. *)
Definition register (env : environment) (reg : registrar)
    (body : register_body) : M register_response :=
  match bcrypt_hash reg (reg_password body) with
  | None => ret (register_error 500 "Erro interno no servidor.")
  | Some hashedPassword =>
      match users_insert reg with
      | refused code =>
          if String.eqb code "23505"
          then ret (register_error 400 "Email ou CPF já cadastrados.")
          else ret (register_error 500 "Erro interno no servidor.")
      | inserted new_id default_credits default_date =>
          let row :=
            {| id := new_id;
               email := toLowerCase_trim env (reg_email body);
               password_hash := hashedPassword;
               age := reg_age body;
               credits := default_credits;
               last_recharge_date := default_date |} in
          fun s =>
            (Ok (register_json new_id (email row) default_credits),
             {| store := insert_user row (store s); txn := txn s;
                log := log s |})
      end
  end.

(** ** Requests served one after another *)

Inductive call :=
| call_login (env : environment) (body : login_body)
| call_generate (env : environment) (req : generate_request)
| call_preference (env : environment) (req : preference_request).

Definition perform (c : call) : M response :=
  match c with
  | call_login env body => login env body
  | call_generate env req => ai_generate env req
  | call_preference env req => create_preference env req
  end.

(** Each call runs from start to end on the tables the previous one left. *)
Fixpoint serve (cs : list call) (db : database)
    : list (result response) * database :=
  match cs with
  | [] => ([], db)
  | c :: cs' =>
      let r := run (perform c) db in
      let (answers, db') := serve cs' (db_after r) in
      (response_of r :: answers, db')
  end.

Definition is_generated (a : result response) : bool :=
  match a with
  | Ok (generate_json _ _) => true
  | _ => false
  end.

Definition is_insufficient (a : result response) : bool :=
  match a with
  | Ok (status_json 402 _) => true
  | _ => false
  end.

Definition count_answers (f : result response -> bool)
    (answers : list (result response)) : nat :=
  List.length (filter f answers).

(** ** Spending under interleaving *)

(** The costs of the requests on account [i] that have been answered with
    success. *)
Definition spent_on (i : Z) (ths : list Concurrent.thread) : Z :=
  fold_right Z.add 0
    (map (fun t => cost (Concurrent.th_req t))
       (filter (fun t => Concurrent.succeeded t &&
                         (req_user_id (Concurrent.th_req t) =? i))
          ths)).

(** The row [UPDATE users SET credits = 100, last_recharge_date =
    CURRENT_DATE] makes of a matching row. *)
Definition recharged_row (current_date : Z) (u : user) : user :=
  {| id := id u; email := email u; password_hash := password_hash u;
     age := age u; credits := 100;
     last_recharge_date := Some current_date |}.

(** No character of [s] is a space. *)
Fixpoint no_space (s : string) : bool :=
  match s with
  | EmptyString => true
  | String c rest => negb (Ascii.eqb c space) && no_space rest
  end.

(** Row [v] is row [u] but for its balance. *)
Definition same_but_credits (u v : user) : Prop :=
  id v = id u /\ email v = email u /\ password_hash v = password_hash u /\
  age v = age u /\ last_recharge_date v = last_recharge_date u.

(** Four hundred days after the epoch. *)
Definition env_later : environment :=
  collaborators (400 * MS_PER_DAY) (Some "ola") no_failure.

(** A row with neither age nor last recharge date. *)
Definition newcomer : user :=
  {| id := 1; email := "ana@sus.br"; password_hash := "segredo";
     age := None; credits := 7; last_recharge_date := None |}.

(** The generation API answers but [jwt.sign] throws. *)
Definition env_no_jwt : environment :=
  {| today := 200 * MS_PER_DAY;
     CURRENT_DATE := 200 * MS_PER_DAY;
     toLowerCase_trim := fun s => s;
     bcrypt_compare := String.eqb;
     jwt_sign := fun _ => None;
     gemini := fun _ => Some "ola";
     JSON_parse := fun _ => None;
     mp_client := false;
     mp_preference_create := fun _ _ => None;
     db_fails := no_failure |}.

(** No two rows share an [id] and no balance is negative. *)
Definition sound_balances (db : database) : Prop :=
  NoDup (map id (users db)) /\ Forall (fun u => 0 <= credits u) (users db).

(** Between two states, the balances of account [i] went down by [d] and so
    did the sum of its transaction amounts. *)
Definition charged (i : Z) (d : Z) (s s' : state) : Prop :=
  select_credits (store s') i =
    map (fun c => c - d) (select_credits (store s) i) /\
  ledger_sum (store s') i = ledger_sum (store s) i - d.

(** The request has been answered with success. *)
Definition answered_with_success (p : Concurrent.pc) : bool :=
  match p with
  | Concurrent.Finished (Ok (generate_json _ _)) => true
  | _ => false
  end.

(** A registrar whose hash is the password itself (matching [String.eqb] as
    [bcrypt.compare]) and whose insert gives [id] 2, 100 credits and no
    recharge date. *)
Definition registrar_ok : registrar :=
  {| bcrypt_hash := fun password => Some password;
     users_insert := inserted 2 100 None |}.

Definition bia_registers : register_body :=
  {| reg_email := "bia@sus.br"; reg_password := "senha"; reg_age := Some 30 |}.

(** * Properties *)

Arguments select_credits : simpl never.
Arguments update_debit : simpl never.
Arguments insert_usage : simpl never.
Arguments select_users_by_email : simpl never.
Arguments update_recharge : simpl never.
Arguments recharge_due : simpl never.
Arguments diffDays : simpl never.

Ltac unfold_handlers :=
  unfold run, response_of, db_after, calls_of, ai_generate, debitar, fetch_text,
    pool_select, pool_update, pool_connect, client_begin, client_write,
    client_commit, client_rollback, client_release,
    try_catch_finally, try_catch, bind, ret, throw, record, initial;
  simpl.

Ltac unfold_login :=
  unfold run, response_of, db_after, calls_of, login,
    pool_select, pool_update, try_catch, bind, ret, throw, record, initial;
  simpl.

(** *** [/ai/generate]: one lemma per way through the handler *)

Lemma ai_generate_committed env req db c rest :
  db_fails env SelectCredits = false ->
  select_credits db (req_user_id req) = c :: rest ->
  cost req <= c ->
  usable_text env req = true ->
  debit_calls_ok env = true ->
  exists txt,
    gemini env (prompt_sent req) = Some txt /\
    run (ai_generate env req) db =
      (Ok (generate_json (finalResult env req txt) (c - cost req)),
       {| store := debited req db; txn := None;
          log := [Query SelectCredits; Fetch (prompt_sent req); Query Connect;
                  Query Begin; Query UpdateDebit; Query InsertUsage;
                  Query Commit; Query Release] |}).
Proof.
  intros Hsel Hrow Hc Hu Hok.
  unfold usable_text in Hu.
  destruct (gemini env (prompt_sent req)) as [txt|] eqn:Hg; [|discriminate].
  exists txt. split; [reflexivity|].
  unfold debit_calls_ok in Hok.
  repeat (apply andb_prop in Hok; destruct Hok as [Hok ?]).
  repeat match goal with H : negb _ = true |- _ => apply negb_true_iff in H end.
  unfold_handlers.
  rewrite Hsel. simpl. rewrite Hrow.
  destruct (c <? cost req) eqn:E; [apply Z.ltb_lt in E; lia|].
  rewrite Hg. destruct (falsy txt); [discriminate|].
  repeat match goal with H : db_fails _ _ = false |- _ => rewrite H; simpl end.
  reflexivity.
Qed.

Lemma ai_generate_rejected env req db c rest :
  db_fails env SelectCredits = false ->
  select_credits db (req_user_id req) = c :: rest ->
  c < cost req ->
  run (ai_generate env req) db =
    (Ok (status_json 402 "Créditos insuficientes."),
     {| store := db; txn := None; log := [Query SelectCredits] |}).
Proof.
  intros Hsel Hrow Hc.
  unfold_handlers. rewrite Hsel. simpl. rewrite Hrow.
  apply Z.ltb_lt in Hc. rewrite Hc. reflexivity.
Qed.

Lemma ai_generate_no_text env req db c rest :
  db_fails env SelectCredits = false ->
  select_credits db (req_user_id req) = c :: rest ->
  cost req <= c ->
  usable_text env req = false ->
  run (ai_generate env req) db =
    (Ok (status_json 500 "Erro ao processar IA."),
     {| store := db; txn := None;
        log := [Query SelectCredits; Fetch (prompt_sent req)] |}).
Proof.
  intros Hsel Hrow Hc Hu.
  unfold usable_text in Hu.
  unfold_handlers. rewrite Hsel. simpl. rewrite Hrow.
  destruct (c <? cost req) eqn:E; [apply Z.ltb_lt in E; lia|].
  destruct (gemini env (prompt_sent req)) as [txt|]; [|reflexivity].
  destruct (falsy txt); [reflexivity|discriminate].
Qed.

Lemma ai_generate_rolled_back env req db c rest :
  db_fails env SelectCredits = false ->
  select_credits db (req_user_id req) = c :: rest ->
  cost req <= c ->
  usable_text env req = true ->
  debit_calls_ok env = false ->
  let r := run (ai_generate env req) db in
  response_of r = Ok (status_json 500 "Erro ao processar IA.") /\
  db_after r = db /\
  exists tail,
    calls_of r =
      Query SelectCredits :: Fetch (prompt_sent req) :: Query Connect :: tail.
Proof.
  intros Hsel Hrow Hc Hu Hko.
  unfold usable_text in Hu.
  destruct (gemini env (prompt_sent req)) as [txt|] eqn:Hg; [|discriminate].
  unfold_handlers. rewrite Hsel. simpl. rewrite Hrow.
  destruct (c <? cost req) eqn:E; [apply Z.ltb_lt in E; lia|].
  rewrite Hg. destruct (falsy txt); [discriminate|].
  unfold debit_calls_ok in Hko.
  destruct (db_fails env Connect); simpl;
    [repeat split; eexists; reflexivity|].
  destruct (db_fails env Begin); simpl;
    [destruct (db_fails env Rollback); simpl; repeat split; eexists; reflexivity|].
  destruct (db_fails env UpdateDebit); simpl;
    [destruct (db_fails env Rollback); simpl; repeat split; eexists; reflexivity|].
  destruct (db_fails env InsertUsage); simpl;
    [destruct (db_fails env Rollback); simpl; repeat split; eexists; reflexivity|].
  destruct (db_fails env Commit); simpl; [|discriminate].
  destruct (db_fails env Rollback); simpl; repeat split; eexists; reflexivity.
Qed.

Lemma ai_generate_no_row env req db :
  db_fails env SelectCredits = true \/ select_credits db (req_user_id req) = [] ->
  exists e,
    run (ai_generate env req) db =
      (Throw e, {| store := db; txn := None; log := [Query SelectCredits] |}).
Proof.
  intros H. unfold_handlers.
  destruct (db_fails env SelectCredits); simpl.
  - eexists; reflexivity.
  - destruct H as [H|H]; [discriminate|]. rewrite H. eexists; reflexivity.
Qed.

(** *** The statements on the tables *)

Lemma select_credits_update_debit cost i db :
  select_credits (update_debit cost i db) i =
  map (fun b => b - cost) (select_credits db i).
Proof.
  unfold select_credits, update_debit; simpl.
  induction (users db) as [|u us IH]; simpl; [reflexivity|].
  destruct (id u =? i) eqn:E; simpl; rewrite E; simpl; now rewrite IH.
Qed.

Lemma select_credits_insert_usage i amt descr db j :
  select_credits (insert_usage i amt descr db) j = select_credits db j.
Proof. reflexivity. Qed.

Lemma select_credits_debited req db :
  select_credits (debited req db) (req_user_id req) =
  map (fun b => b - cost req) (select_credits db (req_user_id req)).
Proof.
  unfold debited. rewrite select_credits_insert_usage.
  apply select_credits_update_debit.
Qed.

Lemma transactions_debited req db :
  transactions (debited req db) =
  transactions db ++
  [ {| user_id := req_user_id req; amount := - cost req;
       description := "Uso IA"; type := "usage" |} ].
Proof. reflexivity. Qed.

Lemma select_credits_update_recharge d i db :
  select_credits (update_recharge d i db) i =
  map (fun _ => 100) (select_credits db i).
Proof.
  unfold select_credits, update_recharge; simpl.
  induction (users db) as [|u us IH]; simpl; [reflexivity|].
  destruct (id u =? i) eqn:E; simpl; rewrite E; simpl; now rewrite IH.
Qed.

Lemma update_recharge_rows d i db u :
  In u (users (update_recharge d i db)) ->
  id u = i ->
  credits u = 100 /\ last_recharge_date u = Some d.
Proof.
  unfold update_recharge; simpl. intros Hin Hid.
  apply in_map_iff in Hin. destruct Hin as [v [Hv _]].
  destruct (id v =? i) eqn:E.
  - subst u. now split.
  - subst u. apply Z.eqb_neq in E. contradiction.
Qed.

Lemma ledger_sum_debited req db i :
  ledger_sum (debited req db) i =
  ledger_sum db i + (if req_user_id req =? i then - cost req else 0).
Proof.
  unfold ledger_sum. rewrite transactions_debited.
  induction (transactions db) as [|t ts IH]; simpl.
  - destruct (req_user_id req =? i); simpl; lia.
  - destruct (user_id t =? i); simpl; rewrite IH; lia.
Qed.

Lemma ledger_consistent_debited grant req db :
  ledger_consistent grant db ->
  ledger_consistent grant (debited req db).
Proof.
  unfold ledger_consistent. intros H.
  change (users (debited req db))
    with (users (update_debit (cost req) (req_user_id req) db)).
  unfold update_debit; simpl.
  apply Forall_map. eapply Forall_impl; [|exact H].
  intros u Hu. simpl in Hu. rewrite ledger_sum_debited.
  destruct (id u =? req_user_id req) eqn:E; simpl;
    rewrite Z.eqb_sym, E; lia.
Qed.

Lemma last_recharge_date_debited req db :
  map last_recharge_date (users (debited req db)) =
  map last_recharge_date (users db).
Proof.
  unfold debited, insert_usage, update_debit; simpl.
  induction (users db) as [|u us IH]; simpl; [reflexivity|].
  rewrite IH. now destruct (id u =? req_user_id req).
Qed.

(** *** [/ai/generate]: the calls it can make, and what it leaves stored *)

Lemma ai_generate_calls env req db :
  incl (calls_of (run (ai_generate env req) db)) (generate_calls req).
Proof.
  unfold_handlers.
  destruct (db_fails env SelectCredits); simpl;
    [intros ev H; simpl in *; tauto|].
  destruct (select_credits db (req_user_id req)) as [|c rest]; simpl;
    [intros ev H; simpl in *; tauto|].
  destruct (c <? cost req); simpl; [intros ev H; simpl in *; tauto|].
  destruct (gemini env (prompt_sent req)) as [txt|]; simpl;
    [destruct (falsy txt); simpl|]; try (intros ev H; simpl in *; tauto).
  destruct (db_fails env Connect), (db_fails env Begin),
    (db_fails env UpdateDebit), (db_fails env InsertUsage),
    (db_fails env Commit), (db_fails env Rollback); simpl;
    intros ev H; simpl in *; tauto.
Qed.

Lemma ai_generate_store env req db :
  let r := run (ai_generate env req) db in
  (db_after r = db /\
   forall res n, response_of r <> Ok (generate_json res n)) \/
  (db_after r = debited req db /\
   exists c rest txt,
     select_credits db (req_user_id req) = c :: rest /\
     cost req <= c /\
     usable_text env req = true /\
     gemini env (prompt_sent req) = Some txt /\
     response_of r = Ok (generate_json (finalResult env req txt) (c - cost req))).
Proof.
  destruct (db_fails env SelectCredits) eqn:Hsel.
  { destruct (ai_generate_no_row env req db (or_introl Hsel)) as [e He].
    left. cbv zeta. rewrite He. split; [reflexivity|discriminate]. }
  destruct (select_credits db (req_user_id req)) as [|c rest] eqn:Hrow.
  { destruct (ai_generate_no_row env req db (or_intror Hrow)) as [e He].
    left. cbv zeta. rewrite He. split; [reflexivity|discriminate]. }
  destruct (Z.lt_ge_cases c (cost req)) as [Hc|Hc].
  { left. cbv zeta. rewrite (ai_generate_rejected env req db c rest Hsel Hrow Hc).
    split; [reflexivity|discriminate]. }
  destruct (usable_text env req) eqn:Hu.
  2:{ left. cbv zeta. rewrite (ai_generate_no_text env req db c rest Hsel Hrow Hc Hu).
      split; [reflexivity|discriminate]. }
  destruct (debit_calls_ok env) eqn:Hok.
  - right. cbv zeta.
    destruct (ai_generate_committed env req db c rest Hsel Hrow Hc Hu Hok)
      as [txt [Hg Hr]].
    rewrite Hr. split; [reflexivity|].
    exists c, rest, txt. repeat split; assumption.
  - left.
    destruct (ai_generate_rolled_back env req db c rest Hsel Hrow Hc Hu Hok)
      as [Hresp [Hdb _]].
    cbv zeta. split; [exact Hdb|]. rewrite Hresp. discriminate.
Qed.

Lemma not_generated r :
  (forall res n, response_of r <> Ok (generate_json res n)) ->
  generated r = false.
Proof.
  unfold generated, response_of. intros H.
  destruct (fst r) as [[ | | res n| ]|]; try reflexivity.
  exfalso. now apply (H res n).
Qed.

(** *** [/auth/login] *)

Lemma login_recharged env body db user rest token :
  db_fails env SelectUserByEmail = false ->
  select_users_by_email db (toLowerCase_trim env (body_email body)) = user :: rest ->
  bcrypt_compare env (body_password body) (password_hash user) = true ->
  recharge_due (age user)
    (diffDays (today env) (new_Date (last_recharge_date user))) = true ->
  db_fails env UpdateRecharge = false ->
  jwt_sign env (id user) = Some token ->
  run (login env body) db =
    (Ok (login_json token (without_password_hash (set_credits_100 user))
           (Some "Sua cota SUS foi renovada!")),
     {| store := update_recharge (CURRENT_DATE env) (id user) db;
        txn := None;
        log := [Query SelectUserByEmail; Query UpdateRecharge] |}).
Proof.
  intros Hsel Hrow Hpw Hdue Hupd Hjwt.
  unfold_login. rewrite Hsel. simpl. rewrite Hrow, Hpw, Hdue. simpl.
  rewrite Hupd. simpl. rewrite Hjwt. reflexivity.
Qed.

Lemma login_not_recharged env body db user rest token :
  db_fails env SelectUserByEmail = false ->
  select_users_by_email db (toLowerCase_trim env (body_email body)) = user :: rest ->
  bcrypt_compare env (body_password body) (password_hash user) = true ->
  recharge_due (age user)
    (diffDays (today env) (new_Date (last_recharge_date user))) = false ->
  jwt_sign env (id user) = Some token ->
  run (login env body) db =
    (Ok (login_json token (without_password_hash user) None),
     {| store := db; txn := None; log := [Query SelectUserByEmail] |}).
Proof.
  intros Hsel Hrow Hpw Hdue Hjwt.
  unfold_login. rewrite Hsel. simpl. rewrite Hrow, Hpw, Hdue. simpl.
  rewrite Hjwt. reflexivity.
Qed.

Lemma login_store env body db :
  let r := run (login env body) db in
  db_after r = db \/
  exists user rest,
    select_users_by_email db (toLowerCase_trim env (body_email body)) = user :: rest /\
    recharge_due (age user)
      (diffDays (today env) (new_Date (last_recharge_date user))) = true /\
    db_after r = update_recharge (CURRENT_DATE env) (id user) db.
Proof.
  unfold_login.
  destruct (db_fails env SelectUserByEmail); simpl; [now left|].
  destruct (select_users_by_email db _) as [|user rest] eqn:Hrow; simpl;
    [now left|].
  destruct (bcrypt_compare env _ _); simpl; [|now left].
  destruct (recharge_due _ _) eqn:Hdue; simpl.
  - destruct (db_fails env UpdateRecharge); simpl; [now left|].
    right. exists user, rest. repeat split; [exact Hdue|].
    now destruct (jwt_sign env (id user)).
  - left. now destruct (jwt_sign env (id user)).
Qed.

Lemma create_preference_store env req db :
  run (create_preference env req) db =
    (fst (run (create_preference env req) db), initial db).
Proof.
  unfold run, create_preference, try_catch, ret, throw.
  destruct (mp_client env); simpl; [|reflexivity].
  now destruct (mp_preference_create env _ _).
Qed.

(** *** Interleaving *)


(** ** The recharge rule *)

Lemma Math_ceil_div_spec a b :
  0 < b ->
  (Math_ceil_div a b - 1) * b < a <= Math_ceil_div a b * b.
Proof.
  intros Hb. unfold Math_ceil_div.
  pose proof (Z.div_mod (- a) b ltac:(lia)) as Hdm.
  pose proof (Z.mod_pos_bound (- a) b Hb) as Hm.
  nia.
Qed.

Lemma recharge_due_window a d :
  recharge_due a d = (window a <=? d).
Proof.
  unfold recharge_due, window, age_gt_60, age_le_60.
  destruct a as [n|]; simpl; [|reflexivity].
  destruct (60 <? n) eqn:E.
  - assert ((n <=? 60) = false) as -> by (apply Z.leb_gt; apply Z.ltb_lt in E; lia).
    simpl. now rewrite orb_false_r.
  - assert ((n <=? 60) = true) as -> by (apply Z.leb_le; apply Z.ltb_ge in E; lia).
    reflexivity.
Qed.

(** C4: the elapsed days are the ceiling of the absolute difference between
    the last recharge and now, in days; the account is due exactly when the
    elapsed days reach the window, which is 180 days above 60 years of age
    and 365 days otherwise, 60 years itself included. *)
Theorem C4_recharge_decision (a : option Z) (now last : Z) :
  let d := diffDays now last in
  (d - 1) * MS_PER_DAY < Z.abs (now - last) <= d * MS_PER_DAY /\
  0 <= d /\
  recharge_due a d = (window a <=? d) /\
  (forall n, window (Some n) = if 60 <? n then 180 else 365) /\
  recharge_due (Some 60) d = (365 <=? d) /\
  recharge_due (Some 61) d = (180 <=? d).
Proof.
  cbv zeta.
  assert (0 < MS_PER_DAY) as Hpos by reflexivity.
  pose proof (Math_ceil_div_spec (Z.abs (now - last)) MS_PER_DAY Hpos) as Hc.
  fold (diffDays now last) in Hc.
  split; [exact Hc|]. split; [|split; [apply recharge_due_window|]].
  - pose proof (Z.abs_nonneg (now - last)). nia.
  - split; [reflexivity|]. now rewrite !recharge_due_window.
Qed.

(** ** The credit check of [/ai/generate] *)

(** C1, as the code has it: when the cost exceeds the balance read by the
    credit check the request is answered 402 "Créditos insuficientes.",
    nothing is written and the generation API is not called, also when
    other requests are interleaved; when the balance covers the cost,
    equality included, the request passes the check and the generation API
    is called, and once it has given a usable text the debit leaves
    [balance - cost].  A request that runs from start to end on its own
    never leaves a negative balance. *)
Theorem C1_insufficient_credits_gate env req db c :
  db_fails env SelectCredits = false ->
  select_credits db (req_user_id req) = [c] ->
  let r := run (ai_generate env req) db in
  (c < cost req ->
     response_of r = Ok (status_json 402 "Créditos insuficientes.") /\
     db_after r = db /\
     calls_of r = [Query SelectCredits]) /\
  (cost req <= c ->
     response_of r <> Ok (status_json 402 "Créditos insuficientes.") /\
     In (Fetch (prompt_sent req)) (calls_of r) /\
     (usable_text env req = true -> debit_calls_ok env = true ->
        exists res,
          response_of r = Ok (generate_json res (c - cost req)) /\
          db_after r = debited req db /\
          select_credits (db_after r) (req_user_id req) = [c - cost req])) /\
  (db_after r = db \/
   select_credits (db_after r) (req_user_id req) = [c - cost req] /\
   0 <= c - cost req) /\
  (forall s c' rest,
     select_credits (store s) (req_user_id req) = c' :: rest ->
     c' < cost req ->
     Concurrent.advance env req Concurrent.AtSelect s =
       (Concurrent.Finished (Ok (status_json 402 "Créditos insuficientes.")),
        record (Query SelectCredits) s)).
Proof.
  intros Hsel Hrow. cbv zeta. split; [|split; [|split]].
  - intros Hc. rewrite (ai_generate_rejected env req db c [] Hsel Hrow Hc).
    repeat split.
  - intros Hc.
    destruct (usable_text env req) eqn:Hu.
    + destruct (debit_calls_ok env) eqn:Hok.
      * destruct (ai_generate_committed env req db c [] Hsel Hrow Hc Hu Hok)
          as [txt [_ Hr]].
        rewrite Hr. split; [discriminate|]. split; [simpl; tauto|].
        intros _ _. eexists. split; [reflexivity|]. split; [reflexivity|].
        unfold db_after; simpl. now rewrite select_credits_debited, Hrow.
      * destruct (ai_generate_rolled_back env req db c [] Hsel Hrow Hc Hu Hok)
          as [Hresp [_ [tail Hcalls]]].
        rewrite Hresp, Hcalls. split; [discriminate|].
        split; [simpl; tauto|]. discriminate.
    + rewrite (ai_generate_no_text env req db c [] Hsel Hrow Hc Hu).
      split; [discriminate|]. split; [simpl; tauto|]. discriminate.
  - destruct (ai_generate_store env req db) as [[Hdb _]|[Hdb H]];
      [now left|right].
    destruct H as [c' [rest [txt [Hrow' [Hc _]]]]].
    rewrite Hrow in Hrow'. injection Hrow' as <- _.
    rewrite Hdb, select_credits_debited, Hrow. split; [reflexivity|lia].
  - intros s c' rest Hrow' Hc.
    unfold Concurrent.advance, pool_select. rewrite Hsel. simpl.
    rewrite Hrow'. apply Z.ltb_lt in Hc. now rewrite Hc.
Qed.

Lemma C1_insufficient_credits_gate_witness :
  response_of (run (ai_generate env_ok (consume 30)) (account 20)) =
    Ok (status_json 402 "Créditos insuficientes.") /\
  exists res,
    response_of (run (ai_generate env_ok (consume 30)) (account 30)) =
      Ok (generate_json res 0).
Proof.
  split.
  - destruct (C1_insufficient_credits_gate env_ok (consume 30) (account 20) 20
                eq_refl eq_refl) as [H _].
    apply H. reflexivity.
  - destruct (C1_insufficient_credits_gate env_ok (consume 30) (account 30) 30
                eq_refl eq_refl) as [_ [H _]].
    destruct H as [_ [_ H]]; [discriminate|].
    destruct (H eq_refl eq_refl) as [res [Hres _]].
    exists res. exact Hres.
Defined.

(** Counterexample to C1 as the specification words it: with balance 100 and
    cost 30 the check passes, the generation gives no text and no debit
    follows; and of two requests of 60 that both read the balance 100, the
    second debits after the first has left 40, and leaves -20. *)
Lemma C1_debit_can_leave_negative_balance :
  db_after (run (ai_generate env_no_text (consume 30)) (account 100)) =
    account 100 /\
  outcome [0; 1; 0; 0; 1]%nat (requests 2 60) (account 100) =
    (1%nat, 0%nat, [40], [-60]) /\
  outcome [0; 1; 0; 0; 1; 1]%nat (requests 2 60) (account 100) =
    (2%nat, 0%nat, [-20], [-60; -60]).
Proof. repeat split. Qed.

(** ** The debit transaction *)

(** C6: the block under [// Debitar] either commits both writes, the balance
    lowered by the cost and one [usage] row carrying the negated cost, or,
    when any of its calls up to [COMMIT] fails, throws and leaves the stored
    users and transactions as they were. *)
Theorem C6_debit_is_all_or_nothing env req read_credits res db :
  let r := run (debitar env req read_credits res) db in
  if debit_calls_ok env
  then response_of r = Ok (generate_json res (read_credits - cost req)) /\
       db_after r = debited req db /\
       select_credits (db_after r) (req_user_id req) =
         map (fun b => b - cost req) (select_credits db (req_user_id req)) /\
       transactions (db_after r) =
         transactions db ++
         [ {| user_id := req_user_id req; amount := - cost req;
              description := "Uso IA"; type := "usage" |} ]
  else (exists e, response_of r = Throw e) /\
       db_after r = db.
Proof.
  cbv zeta. unfold debit_calls_ok. unfold_handlers.
  destruct (db_fails env Connect); simpl; [split; [eexists|]; reflexivity|].
  destruct (db_fails env Begin); simpl;
    [destruct (db_fails env Rollback); simpl; split; [eexists| |eexists|];
     reflexivity|].
  destruct (db_fails env UpdateDebit); simpl;
    [destruct (db_fails env Rollback); simpl; split; [eexists| |eexists|];
     reflexivity|].
  destruct (db_fails env InsertUsage); simpl;
    [destruct (db_fails env Rollback); simpl; split; [eexists| |eexists|];
     reflexivity|].
  destruct (db_fails env Commit); simpl;
    [destruct (db_fails env Rollback); simpl; split; [eexists| |eexists|];
     reflexivity|].
  split; [reflexivity|]. split; [reflexivity|].
  split; [apply select_credits_debited|reflexivity].
Qed.

(** ** Generation failures *)

(** C10: when the generation call fails or gives no usable text, nothing is
    debited: the stored users and transactions are unchanged, neither the
    [UPDATE] nor the [INSERT] of the debit is issued, no success is
    answered, and a request that had passed the credit check is answered
    500 "Erro ao processar IA.". *)
Theorem C10_no_charge_without_text env req db :
  usable_text env req = false ->
  let r := run (ai_generate env req) db in
  db_after r = db /\
  ~ In (Query UpdateDebit) (calls_of r) /\
  ~ In (Query InsertUsage) (calls_of r) /\
  (forall res n, response_of r <> Ok (generate_json res n)) /\
  (forall c rest,
     db_fails env SelectCredits = false ->
     select_credits db (req_user_id req) = c :: rest ->
     cost req <= c ->
     response_of r = Ok (status_json 500 "Erro ao processar IA.") /\
     calls_of r = [Query SelectCredits; Fetch (prompt_sent req)]).
Proof.
  intros Hu. cbv zeta.
  assert (forall c rest,
            db_fails env SelectCredits = false ->
            select_credits db (req_user_id req) = c :: rest ->
            cost req <= c ->
            run (ai_generate env req) db =
              (Ok (status_json 500 "Erro ao processar IA."),
               {| store := db; txn := None;
                  log := [Query SelectCredits; Fetch (prompt_sent req)] |}))
    as Hpass.
  { intros c rest Hsel Hrow Hc.
    exact (ai_generate_no_text env req db c rest Hsel Hrow Hc Hu). }
  assert (forall ev, In ev (calls_of (run (ai_generate env req) db)) ->
                     ev = Query SelectCredits \/ ev = Fetch (prompt_sent req))
    as Hcalls.
  { destruct (db_fails env SelectCredits) eqn:Hsel.
    { destruct (ai_generate_no_row env req db (or_introl Hsel)) as [e ->].
      simpl. intuition. }
    destruct (select_credits db (req_user_id req)) as [|c rest] eqn:Hrow.
    { destruct (ai_generate_no_row env req db (or_intror Hrow)) as [e ->].
      simpl. intuition. }
    destruct (Z.lt_ge_cases c (cost req)) as [Hc|Hc].
    - rewrite (ai_generate_rejected env req db c rest Hsel Hrow Hc).
      simpl. intuition.
    - rewrite (Hpass c rest eq_refl eq_refl Hc). simpl. intuition. }
  destruct (ai_generate_store env req db) as [[Hdb Hresp]|[_ H]].
  - split; [exact Hdb|].
    split; [intros H; apply Hcalls in H; destruct H; discriminate|].
    split; [intros H; apply Hcalls in H; destruct H; discriminate|].
    split; [exact Hresp|].
    intros c rest Hsel Hrow Hc. rewrite (Hpass c rest Hsel Hrow Hc).
    split; reflexivity.
  - destruct H as [c [rest [txt [_ [_ [Hu' _]]]]]]. congruence.
Qed.

Lemma C10_no_charge_without_text_witness :
  db_after (run (ai_generate env_no_text (consume 30)) (account 100)) =
    account 100.
Proof.
  exact (proj1 (C10_no_charge_without_text env_no_text (consume 30)
                  (account 100) eq_refl)).
Defined.

(** ** The ledger sum *)

(** C2, as the code has it: every run of [/ai/generate] keeps each balance
    equal to the starting grant plus the account's transaction amounts;
    [/auth/login] never writes a transaction row, so its recharge, which
    stores 100 as the balance, is not covered by any row;
    [/create_preference] writes nothing. *)
Theorem C2_ledger_sum_kept_by_debit grant db :
  ledger_consistent grant db ->
  (forall env req,
     ledger_consistent grant (db_after (run (ai_generate env req) db))) /\
  (forall env body,
     let r := run (login env body) db in
     transactions (db_after r) = transactions db /\
     (db_after r = db \/
      exists user rest,
        select_users_by_email db (toLowerCase_trim env (body_email body)) =
          user :: rest /\
        db_after r = update_recharge (CURRENT_DATE env) (id user) db /\
        select_credits (db_after r) (id user) =
          map (fun _ => 100) (select_credits db (id user)))) /\
  (forall env req, db_after (run (create_preference env req) db) = db).
Proof.
  intros Hinv. split; [|split].
  - intros env req.
    destruct (ai_generate_store env req db) as [[-> _]|[-> _]];
      [exact Hinv|now apply ledger_consistent_debited].
  - intros env body. cbv zeta.
    destruct (login_store env body db) as [->|[user [rest [Hrow [_ ->]]]]].
    + split; [reflexivity|now left].
    + split; [reflexivity|right].
      exists user, rest. split; [exact Hrow|]. split; [reflexivity|].
      apply select_credits_update_recharge.
  - intros env req. unfold db_after.
    now rewrite create_preference_store.
Qed.

Lemma C2_ledger_sum_kept_by_debit_witness :
  ledger_consistent 100
    (db_after (run (ai_generate env_ok (consume 30)) account_used)).
Proof.
  assert (ledger_consistent 100 account_used) as Hinv.
  { constructor; [reflexivity|constructor]. }
  exact (proj1 (C2_ledger_sum_kept_by_debit 100 account_used Hinv)
           env_ok (consume 30)).
Defined.

(** Counterexample to C2 as the specification words it: the account holds 40
    after one usage of 60 out of a grant of 100; a login 200 days after the
    last recharge stores 100 and adds no row, and 100 is not 100 + (-60). *)
Lemma C2_recharge_breaks_ledger_sum :
  ledger_consistent 100 account_used /\
  ~ ledger_consistent 100
      (db_after (run (login env_ok ana_logs_in) account_used)).
Proof.
  split.
  - constructor; [reflexivity|constructor].
  - intros H. inversion H as [|u us Hu _]. vm_compute in Hu. discriminate.
Qed.

(** ** Recharge and consumption *)

(** C3, as the code has it: [/ai/generate] compares the stored balance with
    the cost, whatever the age and the last recharge date of the account,
    never issues the recharge [UPDATE] and leaves every last recharge date
    as it was; the recharge is applied by [/auth/login], after which the
    stored balance of the account is 100. *)
Theorem C3_gate_compares_stored_balance env req db c rest :
  db_fails env SelectCredits = false ->
  select_credits db (req_user_id req) = c :: rest ->
  let r := run (ai_generate env req) db in
  (response_of r = Ok (status_json 402 "Créditos insuficientes.") <->
   c < cost req) /\
  ~ In (Query UpdateRecharge) (calls_of r) /\
  map last_recharge_date (users (db_after r)) =
    map last_recharge_date (users db) /\
  (forall env' body user rest' token,
     db_fails env' SelectUserByEmail = false ->
     select_users_by_email db (toLowerCase_trim env' (body_email body)) =
       user :: rest' ->
     bcrypt_compare env' (body_password body) (password_hash user) = true ->
     recharge_due (age user)
       (diffDays (today env') (new_Date (last_recharge_date user))) = true ->
     db_fails env' UpdateRecharge = false ->
     jwt_sign env' (id user) = Some token ->
     select_credits (db_after (run (login env' body) db)) (id user) =
       map (fun _ => 100) (select_credits db (id user))).
Proof.
  intros Hsel Hrow. cbv zeta. split; [|split; [|split]].
  - split.
    + intros Hresp.
      destruct (Z.lt_ge_cases c (cost req)) as [Hc|Hc]; [exact Hc|exfalso].
      destruct (usable_text env req) eqn:Hu.
      * destruct (debit_calls_ok env) eqn:Hok.
        -- destruct (ai_generate_committed env req db c rest Hsel Hrow Hc Hu Hok)
             as [txt [_ Hr]].
           rewrite Hr in Hresp. discriminate.
        -- destruct (ai_generate_rolled_back env req db c rest Hsel Hrow Hc Hu Hok)
             as [Hr _].
           rewrite Hr in Hresp. discriminate.
      * rewrite (ai_generate_no_text env req db c rest Hsel Hrow Hc Hu) in Hresp.
        discriminate.
    + intros Hc. now rewrite (ai_generate_rejected env req db c rest Hsel Hrow Hc).
  - intros H. apply ai_generate_calls in H. simpl in H.
    repeat (destruct H as [H|H]; [discriminate|]). exact H.
  - destruct (ai_generate_store env req db) as [[-> _]|[-> _]];
      [reflexivity|apply last_recharge_date_debited].
  - intros env' body user rest' token Hs Hr Hpw Hdue Hupd Hjwt.
    rewrite (login_recharged env' body db user rest' token Hs Hr Hpw Hdue Hupd Hjwt).
    apply select_credits_update_recharge.
Qed.

Lemma C3_gate_compares_stored_balance_witness :
  response_of (run (ai_generate env_ok (consume 30)) (account 20)) =
    Ok (status_json 402 "Créditos insuficientes.") <-> 20 < 30.
Proof.
  exact (proj1 (C3_gate_compares_stored_balance env_ok (consume 30) (account 20)
                  20 [] eq_refl eq_refl)).
Defined.

(** Counterexample to C3 as the specification words it: the account is due for
    replenishment (70 years, 200 days since the last recharge), the stored
    balance 20 is compared with the cost 30 and the request is refused,
    although the replenished balance 100 would cover it; the account is left
    unreplenished. *)
Lemma C3_due_account_checked_on_stale_balance :
  recharge_due (age (ana 20))
    (diffDays (today env_ok) (new_Date (last_recharge_date (ana 20)))) = true /\
  response_of (run (ai_generate env_ok (consume 30)) (account 20)) =
    Ok (status_json 402 "Créditos insuficientes.") /\
  db_after (run (ai_generate env_ok (consume 30)) (account 20)) = account 20.
Proof. repeat split. Qed.

(** ** The recharge at login *)

(** C5, as the code has it: a login that finds the account due stores 100 as
    its balance and the database's current date as its last recharge date,
    inserts no transaction row, and answers the user with balance 100 and
    the renewal message; a login that finds it not due answers the stored
    balance without the message and writes nothing. *)
Theorem C5_login_recharge env body db user rest token :
  db_fails env SelectUserByEmail = false ->
  select_users_by_email db (toLowerCase_trim env (body_email body)) =
    user :: rest ->
  bcrypt_compare env (body_password body) (password_hash user) = true ->
  db_fails env UpdateRecharge = false ->
  jwt_sign env (id user) = Some token ->
  let r := run (login env body) db in
  if recharge_due (age user)
       (diffDays (today env) (new_Date (last_recharge_date user)))
  then response_of r =
         Ok (login_json token (without_password_hash (set_credits_100 user))
               (Some "Sua cota SUS foi renovada!")) /\
       calls_of r = [Query SelectUserByEmail; Query UpdateRecharge] /\
       (forall u, In u (users (db_after r)) -> id u = id user ->
                  credits u = 100 /\
                  last_recharge_date u = Some (CURRENT_DATE env)) /\
       select_credits (db_after r) (id user) =
         map (fun _ => 100) (select_credits db (id user)) /\
       transactions (db_after r) = transactions db
  else response_of r = Ok (login_json token (without_password_hash user) None) /\
       calls_of r = [Query SelectUserByEmail] /\
       db_after r = db.
Proof.
  intros Hsel Hrow Hpw Hupd Hjwt. cbv zeta.
  destruct (recharge_due _ _) eqn:Hdue.
  - rewrite (login_recharged env body db user rest token
               Hsel Hrow Hpw Hdue Hupd Hjwt).
    split; [reflexivity|]. split; [reflexivity|].
    split; [intros u; apply update_recharge_rows|].
    split; [apply select_credits_update_recharge|reflexivity].
  - rewrite (login_not_recharged env body db user rest token
               Hsel Hrow Hpw Hdue Hjwt).
    repeat split.
Qed.

Lemma C5_login_recharge_witness :
  response_of (run (login env_ok ana_logs_in) (account 40)) =
    Ok (login_json "jwt" (without_password_hash (set_credits_100 (ana 40)))
          (Some "Sua cota SUS foi renovada!")).
Proof.
  exact (proj1 (C5_login_recharge env_ok ana_logs_in (account 40) (ana 40) []
                  "jwt" eq_refl eq_refl eq_refl eq_refl eq_refl)).
Defined.

(** Counterexample to C5 as the specification words it: the login that
    recharges ana's account from 40 to 100 leaves the transactions table
    empty; no [recharge] row for the 60 credits is appended. *)
Lemma C5_recharge_appends_no_record :
  select_credits (account 40) 1 = [40] /\
  select_credits (db_after (run (login env_ok ana_logs_in) (account 40))) 1 =
    [100] /\
  transactions (db_after (run (login env_ok ana_logs_in) (account 40))) = [].
Proof. repeat split. Qed.

(** ** Order of the generation call and the debit *)

(** C7, as the code has it: for every request that passes the credit check
    the generation call comes right after the balance read and before any
    call of the debit; when the generation gives no usable text nothing has
    been debited and nothing is; a debit that was answered with success
    stays stored. *)
Theorem C7_generation_precedes_debit env req db c rest :
  db_fails env SelectCredits = false ->
  select_credits db (req_user_id req) = c :: rest ->
  cost req <= c ->
  let r := run (ai_generate env req) db in
  (exists tail,
     calls_of r = Query SelectCredits :: Fetch (prompt_sent req) :: tail /\
     (usable_text env req = false -> tail = [])) /\
  (usable_text env req = false ->
     response_of r = Ok (status_json 500 "Erro ao processar IA.") /\
     db_after r = db) /\
  (forall res n, response_of r = Ok (generate_json res n) ->
                 db_after r = debited req db).
Proof.
  intros Hsel Hrow Hc. cbv zeta. split; [|split].
  - destruct (usable_text env req) eqn:Hu.
    + destruct (debit_calls_ok env) eqn:Hok.
      * destruct (ai_generate_committed env req db c rest Hsel Hrow Hc Hu Hok)
          as [txt [_ ->]].
        eexists. split; [reflexivity|discriminate].
      * destruct (ai_generate_rolled_back env req db c rest Hsel Hrow Hc Hu Hok)
          as [_ [_ [tail ->]]].
        eexists. split; [reflexivity|discriminate].
    + rewrite (ai_generate_no_text env req db c rest Hsel Hrow Hc Hu).
      exists []. split; reflexivity.
  - intros Hu. rewrite (ai_generate_no_text env req db c rest Hsel Hrow Hc Hu).
    split; reflexivity.
  - intros res n Hresp.
    destruct (ai_generate_store env req db) as [[_ H]|[Hdb _]];
      [now destruct (H res n)|exact Hdb].
Qed.

Lemma C7_generation_precedes_debit_witness :
  exists tail,
    calls_of (run (ai_generate env_ok (consume 30)) (account 100)) =
      Query SelectCredits :: Fetch (prompt_sent (consume 30)) :: tail /\
    (usable_text env_ok (consume 30) = false -> tail = []).
Proof.
  assert (cost (consume 30) <= 100) as Hc by (simpl; lia).
  exact (proj1 (C7_generation_precedes_debit env_ok (consume 30) (account 100)
                  100 [] eq_refl eq_refl Hc)).
Defined.

(** Counterexample to C7 as the specification words it: with balance 100 and
    cost 30 the request is authorized and the generation API is called; it
    gives no text, and the balance is still 100 with no transaction row: no
    debit had been made before the call. *)
Lemma C7_no_debit_before_generation :
  calls_of (run (ai_generate env_no_text (consume 30)) (account 100)) =
    [Query SelectCredits; Fetch "hi"] /\
  select_credits
    (db_after (run (ai_generate env_no_text (consume 30)) (account 100))) 1 =
    [100] /\
  transactions
    (db_after (run (ai_generate env_no_text (consume 30)) (account 100))) = [].
Proof. repeat split. Qed.

(** ** Amounts *)

(** C8, as the code has it: there is no validation of the amount; a request
    whose cost is zero or negative passes the credit check as soon as the
    balance is not below it and is debited like any other, so the balance
    does not decrease and the [usage] row carries a non-negative amount. *)
Theorem C8_no_amount_validation env req db c :
  cost req <= 0 ->
  cost req <= c ->
  db_fails env SelectCredits = false ->
  select_credits db (req_user_id req) = [c] ->
  usable_text env req = true ->
  debit_calls_ok env = true ->
  let r := run (ai_generate env req) db in
  (exists res, response_of r = Ok (generate_json res (c - cost req))) /\
  select_credits (db_after r) (req_user_id req) = [c - cost req] /\
  c <= c - cost req /\
  transactions (db_after r) =
    transactions db ++
    [ {| user_id := req_user_id req; amount := - cost req;
         description := "Uso IA"; type := "usage" |} ] /\
  0 <= - cost req.
Proof.
  intros Hneg Hc Hsel Hrow Hu Hok. cbv zeta.
  destruct (ai_generate_committed env req db c [] Hsel Hrow Hc Hu Hok)
    as [txt [_ ->]].
  unfold response_of, db_after; simpl.
  split; [eexists; reflexivity|].
  split; [now rewrite select_credits_debited, Hrow|].
  split; [lia|]. split; [reflexivity|lia].
Qed.

Lemma C8_no_amount_validation_witness :
  select_credits
    (db_after (run (ai_generate env_ok (consume 0)) (account 10))) 1 = [10 - 0].
Proof.
  assert (cost (consume 0) <= 0) as H0 by (simpl; lia).
  assert (cost (consume 0) <= 10) as Hc by (simpl; lia).
  exact (proj1 (proj2 (C8_no_amount_validation env_ok (consume 0) (account 10) 10
                         H0 Hc eq_refl eq_refl eq_refl eq_refl))).
Defined.

(** Counterexample to C8 as the specification words it: a request of cost -5
    on a balance of 10 is answered with success, the balance becomes 15 and a
    [usage] row of amount 5 is inserted. *)
Lemma C8_negative_cost_is_accepted :
  response_of (run (ai_generate env_ok (consume (-5))) (account 10)) =
    Ok (generate_json (Text "ola") 15) /\
  select_credits
    (db_after (run (ai_generate env_ok (consume (-5))) (account 10))) 1 = [15] /\
  transactions
    (db_after (run (ai_generate env_ok (consume (-5))) (account 10))) =
    [ {| user_id := 1; amount := 5; description := "Uso IA"; type := "usage" |} ].
Proof. repeat split. Qed.

(** ** Concurrent debits *)

(** C9, as the code has it: requests handled one after another behave as
    serialized debits: of two debits of 60 against 100 at most one succeeds,
    and ten debits of 10 against 55 give 5 successes, 5 refusals, balance 5
    and 5 [usage] rows.  The credit check is a read of its own, outside the
    debit transaction: when the requests all pass it before any of them
    debits, every one of them succeeds and the balance goes below zero. *)
Theorem C9_debits_serialized_only_in_sequence env1 env2 req1 req2 db :
  req_user_id req1 = req_user_id req2 ->
  cost req1 = 60 ->
  cost req2 = 60 ->
  select_credits db (req_user_id req1) = [100] ->
  let r1 := run (ai_generate env1 req1) db in
  let r2 := run (ai_generate env2 req2) (db_after r1) in
  generated r1 && generated r2 = false /\
  outcome (Concurrent.one_after_another 2) (requests 2 60) (account 100) =
    (1%nat, 1%nat, [40], [-60]) /\
  outcome (Concurrent.one_after_another 10) (requests 10 10) (account 55) =
    (5%nat, 5%nat, [5], [-10; -10; -10; -10; -10]) /\
  outcome (Concurrent.all_check_first 2) (requests 2 60) (account 100) =
    (2%nat, 0%nat, [-20], [-60; -60]) /\
  outcome (Concurrent.all_check_first 10) (requests 10 10) (account 55) =
    (10%nat, 0%nat, [-45], [-10; -10; -10; -10; -10; -10; -10; -10; -10; -10]).
Proof.
  intros Hid H1 H2 Hrow. cbv zeta.
  split; [|repeat split].
  destruct (ai_generate_store env1 req1 db) as [[_ Hno]|[Hdb _]].
  - now rewrite (not_generated _ Hno).
  - rewrite Hdb.
    destruct (ai_generate_store env2 req2 (debited req1 db))
      as [[_ Hno]|[_ [c [rest [txt [Hrow' [Hc _]]]]]]].
    + rewrite (not_generated _ Hno). apply andb_false_r.
    + rewrite <- Hid, select_credits_debited, Hrow, H1 in Hrow'.
      simpl in Hrow'. injection Hrow' as <- _. lia.
Qed.

Lemma C9_debits_serialized_only_in_sequence_witness :
  generated (run (ai_generate env_ok (consume 60)) (account 100)) &&
  generated (run (ai_generate env_ok (consume 60))
               (db_after (run (ai_generate env_ok (consume 60)) (account 100))))
  = false.
Proof.
  exact (proj1 (C9_debits_serialized_only_in_sequence env_ok env_ok
                  (consume 60) (consume 60) (account 100)
                  eq_refl eq_refl eq_refl eq_refl)).
Defined.

(** Counterexample to C9 as the specification words it: two requests of 60
    against a balance of 100 that both read the balance before either debits
    both succeed, and the balance ends at -20. *)
Lemma C9_two_interleaved_debits_both_succeed :
  outcome [0; 1; 0; 1; 0; 1]%nat (requests 2 60) (account 100) =
    (2%nat, 0%nat, [-20], [-60; -60]).
Proof. reflexivity. Qed.

(** * Further properties of the handlers *)

(** ** [authenticateToken] *)

Lemma split_space_no_space s :
  no_space s = true -> split_space s = [s].
Proof.
  induction s as [|c rest IH]; simpl; [reflexivity|].
  intros H. apply andb_prop in H. destruct H as [Hc Hrest].
  apply negb_true_iff in Hc. rewrite Hc, (IH Hrest). reflexivity.
Qed.

Lemma split_space_field a b :
  no_space a = true ->
  split_space (a ++ String space b) = a :: split_space b.
Proof.
  induction a as [|c rest IH]; simpl; intros H; [reflexivity|].
  apply andb_prop in H. destruct H as [Hc Hrest].
  apply negb_true_iff in Hc. rewrite Hc, (IH Hrest). reflexivity.
Qed.

Lemma split_space_second scheme token more :
  no_space scheme = true ->
  no_space token = true ->
  nth_error (split_space (join_space (scheme :: token :: more))) 1 = Some token.
Proof.
  intros Hs Ht.
  change (join_space (scheme :: token :: more))
    with (scheme ++ String space (join_space (token :: more)))%string.
  rewrite (split_space_field _ _ Hs). simpl nth_error.
  destruct more as [|field more'].
  - simpl join_space. now rewrite (split_space_no_space _ Ht).
  - change (join_space (token :: field :: more'))
      with (token ++ String space (join_space (field :: more')))%string.
    now rewrite (split_space_field _ _ Ht).
Qed.

(** X1: a request without an [Authorization] header, or whose header holds
    no space, is answered with status 401 whatever [jwt.verify] would say of
    it; the route handler is not called. *)
Theorem X1_no_second_field_is_401 jwt_verify (h : string) :
  no_space h = true ->
  authenticateToken jwt_verify None = sendStatus 401 /\
  authenticateToken jwt_verify (Some h) = sendStatus 401.
Proof.
  intros Hh. split; [reflexivity|].
  unfold authenticateToken, header_token.
  destruct (falsy h) eqn:Hf; [now rewrite Hf|].
  now rewrite (split_space_no_space h Hh).
Qed.

Lemma X1_no_second_field_is_401_witness :
  authenticateToken (fun _ => Some 1) None = sendStatus 401 /\
  authenticateToken (fun _ => Some 1) (Some "jwt") = sendStatus 401.
Proof.
  exact (X1_no_second_field_is_401 (fun _ => Some 1) "jwt" eq_refl).
Defined.

(** X2: the token is the second space-separated field of the header and
    the first field is not looked at: whatever the scheme word, an empty
    second field (two spaces in a row) gives 401, a token [jwt.verify]
    refuses gives 403 "Token inválido", and an accepted token lets the
    request through under the [id] of its payload. *)
Theorem X2_token_is_second_field jwt_verify scheme token more :
  no_space scheme = true ->
  no_space token = true ->
  authenticateToken jwt_verify (Some (join_space (scheme :: token :: more))) =
    if falsy token then sendStatus 401
    else match jwt_verify token with
         | Some user_id => next user_id
         | None => reject 403 "Token inválido"
         end.
Proof.
  intros Hs Ht. unfold authenticateToken, header_token.
  rewrite (split_space_second scheme token more Hs Ht).
  assert (falsy (join_space (scheme :: token :: more)) = false) as ->.
  { change (join_space (scheme :: token :: more))
      with (scheme ++ String space (join_space (token :: more)))%string.
    now destruct scheme. }
  destruct (falsy token); [reflexivity|].
  now destruct (jwt_verify token).
Qed.

Lemma X2_token_is_second_field_witness :
  authenticateToken (fun _ => Some 1) (Some "Basic jwt") = next 1.
Proof.
  exact (X2_token_is_second_field (fun _ => Some 1) "Basic" "jwt" []
           eq_refl eq_refl).
Defined.

(** ** What [/ai/generate] leaves alone *)

Lemma select_credits_update_debit_other cost i j db :
  j <> i ->
  select_credits (update_debit cost i db) j = select_credits db j.
Proof.
  intros Hij. unfold select_credits, update_debit; simpl.
  induction (users db) as [|u us IH]; simpl; [reflexivity|].
  destruct (id u =? i) eqn:E; simpl.
  - apply Z.eqb_eq in E.
    destruct (id u =? j) eqn:F; [apply Z.eqb_eq in F; congruence|exact IH].
  - destruct (id u =? j); simpl; now rewrite IH.
Qed.

Lemma select_credits_debited_other req db j :
  j <> req_user_id req ->
  select_credits (debited req db) j = select_credits db j.
Proof.
  intros Hj. unfold debited. rewrite select_credits_insert_usage.
  now apply select_credits_update_debit_other.
Qed.

Lemma users_debited req db :
  Forall2 (fun u v => same_but_credits u v /\
                      (id u <> req_user_id req -> v = u))
    (users db) (users (debited req db)).
Proof.
  unfold debited, insert_usage, update_debit; simpl.
  induction (users db) as [|u us IH]; simpl; constructor; [|exact IH].
  destruct (id u =? req_user_id req) eqn:E.
  - apply Z.eqb_eq in E. split; [repeat split|]. intros H. contradiction.
  - split; [repeat split|reflexivity].
Qed.

Lemma users_unchanged (P : user -> user -> Prop) us :
  (forall u, P u u) -> Forall2 P us us.
Proof. intros HP. induction us; constructor; auto. Qed.

(** X3: behind [authenticateToken], a request whose token is missing or
    refused makes no call at all and leaves the tables as they are; a
    request let through can change the balance of no account but the one
    named by its token, and any transaction row it adds belongs to that
    account, whatever the body says. *)
Theorem X3_only_the_token_account_is_charged jwt_verify env authHeader body db :
  let r := run (post_ai_generate jwt_verify env authHeader body) db in
  match authenticateToken jwt_verify authHeader with
  | next account =>
      (forall j, j <> account ->
                 select_credits (db_after r) j = select_credits db j) /\
      exists added,
        transactions (db_after r) = transactions db ++ added /\
        Forall (fun t => user_id t = account) added
  | o => r = (Ok (by_middleware o), initial db)
  end.
Proof.
  cbv zeta. unfold post_ai_generate, behind_authenticateToken.
  destruct (authenticateToken jwt_verify authHeader) as [u|code|code msg];
    [|reflexivity|reflexivity].
  set (req := {| req_user_id := u; prompt := body_prompt body;
                 cost := body_cost body; isJson := body_isJson body |}).
  assert (db_after (run (r <- ai_generate env req;; ret (by_handler r)) db) =
          db_after (run (ai_generate env req) db)) as ->.
  { unfold run, db_after, bind, ret.
    now destruct (ai_generate env req (initial db)) as [[a|e] s]. }
  destruct (ai_generate_store env req db) as [[-> _]|[-> _]].
  - split; [reflexivity|]. exists []. split; [now rewrite app_nil_r|constructor].
  - split.
    + intros j Hj. now apply select_credits_debited_other.
    + eexists. split; [apply transactions_debited|].
      constructor; [reflexivity|constructor].
Qed.


(** X10: whatever happens, [/ai/generate] neither adds nor removes a user
    row, changes no column but the balance, changes no row with another
    [id] than the request's, and leaves the transactions table as it was or
    with the one [usage] row of the debit added at its end. *)
Theorem X10_generate_frame env req db :
  let r := run (ai_generate env req) db in
  Forall2 (fun u v => same_but_credits u v /\
                      (id u <> req_user_id req -> v = u))
    (users db) (users (db_after r)) /\
  (transactions (db_after r) = transactions db \/
   transactions (db_after r) =
     transactions db ++
     [ {| user_id := req_user_id req; amount := - cost req;
          description := "Uso IA"; type := "usage" |} ]).
Proof.
  cbv zeta.
  destruct (ai_generate_store env req db) as [[-> _]|[-> _]].
  - split; [|now left].
    apply users_unchanged. intros u. split; [repeat split|reflexivity].
  - split; [apply users_debited|right; apply transactions_debited].
Qed.

(** ** More on [/auth/login] *)

Lemma login_recharge_written env body db user rest :
  db_fails env SelectUserByEmail = false ->
  select_users_by_email db (toLowerCase_trim env (body_email body)) = user :: rest ->
  bcrypt_compare env (body_password body) (password_hash user) = true ->
  recharge_due (age user)
    (diffDays (today env) (new_Date (last_recharge_date user))) = true ->
  db_fails env UpdateRecharge = false ->
  run (login env body) db =
    (match jwt_sign env (id user) with
     | Some token =>
         Ok (login_json token (without_password_hash (set_credits_100 user))
               (Some "Sua cota SUS foi renovada!"))
     | None => Ok (status_json 500 "Erro interno.")
     end,
     {| store := update_recharge (CURRENT_DATE env) (id user) db;
        txn := None;
        log := [Query SelectUserByEmail; Query UpdateRecharge] |}).
Proof.
  intros Hsel Hrow Hpw Hdue Hupd.
  unfold_login. rewrite Hsel. simpl. rewrite Hrow, Hpw, Hdue. simpl.
  rewrite Hupd. simpl. now destruct (jwt_sign env (id user)).
Qed.

Lemma select_users_by_email_update_recharge d i db e :
  select_users_by_email (update_recharge d i db) e =
  map (fun u => if id u =? i then recharged_row d u else u)
    (select_users_by_email db e).
Proof.
  unfold select_users_by_email, update_recharge; simpl.
  induction (users db) as [|u us IH]; simpl; [reflexivity|].
  destruct (id u =? i) eqn:E; simpl;
    destruct (String.eqb (email u) e); simpl; rewrite ?E, IH; reflexivity.
Qed.

Lemma users_update_recharge d i db :
  Forall2 (fun u v => id v = id u /\ email v = email u /\
                      password_hash v = password_hash u /\ age v = age u /\
                      (v = u \/ v = recharged_row d u))
    (users db) (users (update_recharge d i db)).
Proof.
  unfold update_recharge; simpl.
  induction (users db) as [|u us IH]; simpl; constructor; [|exact IH].
  destruct (id u =? i); repeat split; auto.
Qed.

Lemma diffDays_reaches w now last :
  w <= diffDays now last <-> (w - 1) * MS_PER_DAY < Z.abs (now - last).
Proof.
  assert (0 < MS_PER_DAY) as Hpos by reflexivity.
  pose proof (Math_ceil_div_spec (Z.abs (now - last)) MS_PER_DAY Hpos) as Hc.
  fold (diffDays now last) in Hc.
  split; intros H; nia.
Qed.

(** X4: [/auth/login] hands out a token only for the first row whose email
    is the normalised email of the body, only after [bcrypt.compare] has
    accepted the password against that row's hash, and the token is the one
    signed for that row's [id]; the user object sent with it carries no
    password hash. *)
Theorem X4_token_only_after_password env body db token u msg :
  response_of (run (login env body) db) = Ok (login_json token u msg) ->
  exists user rest,
    select_users_by_email db (toLowerCase_trim env (body_email body)) =
      user :: rest /\
    bcrypt_compare env (body_password body) (password_hash user) = true /\
    jwt_sign env (id user) = Some token /\
    id u = id user /\
    password_hash u = "".
Proof.
  unfold_login.
  destruct (db_fails env SelectUserByEmail); simpl; [discriminate|].
  destruct (select_users_by_email db _) as [|user rest] eqn:Hrow; simpl;
    [discriminate|].
  destruct (bcrypt_compare env _ _) eqn:Hpw; simpl; [|discriminate].
  intros H. exists user, rest. split; [reflexivity|]. split; [exact Hpw|].
  destruct (recharge_due _ _); simpl in H.
  - destruct (db_fails env UpdateRecharge); simpl in H; [discriminate|].
    destruct (jwt_sign env (id user)) as [t|]; simpl in H; [|discriminate].
    injection H as <- <- _. repeat split.
  - destruct (jwt_sign env (id user)) as [t|]; simpl in H; [|discriminate].
    injection H as <- <- _. repeat split.
Qed.

Lemma X4_token_only_after_password_witness :
  exists user rest,
    select_users_by_email (account 40)
      (toLowerCase_trim env_ok (body_email ana_logs_in)) = user :: rest /\
    bcrypt_compare env_ok (body_password ana_logs_in) (password_hash user) =
      true /\
    jwt_sign env_ok (id user) = Some "jwt" /\
    id (without_password_hash (set_credits_100 (ana 40))) = id user /\
    password_hash (without_password_hash (set_credits_100 (ana 40))) = "".
Proof.
  exact (X4_token_only_after_password env_ok ana_logs_in (account 40) "jwt"
           (without_password_hash (set_credits_100 (ana 40)))
           (Some "Sua cota SUS foi renovada!") eq_refl).
Defined.

(** X5: the recharge is written before the token is signed and is not
    undone: when [jwt.sign] throws after a due login, the answer is 500
    "Erro interno." and the account has nevertheless been recharged. *)
Theorem X5_recharge_survives_a_failed_login env body db user rest :
  db_fails env SelectUserByEmail = false ->
  select_users_by_email db (toLowerCase_trim env (body_email body)) =
    user :: rest ->
  bcrypt_compare env (body_password body) (password_hash user) = true ->
  recharge_due (age user)
    (diffDays (today env) (new_Date (last_recharge_date user))) = true ->
  db_fails env UpdateRecharge = false ->
  jwt_sign env (id user) = None ->
  let r := run (login env body) db in
  response_of r = Ok (status_json 500 "Erro interno.") /\
  db_after r = update_recharge (CURRENT_DATE env) (id user) db /\
  select_credits (db_after r) (id user) =
    map (fun _ => 100) (select_credits db (id user)).
Proof.
  intros Hsel Hrow Hpw Hdue Hupd Hjwt. cbv zeta.
  rewrite (login_recharge_written env body db user rest Hsel Hrow Hpw Hdue Hupd).
  rewrite Hjwt. split; [reflexivity|]. split; [reflexivity|].
  apply select_credits_update_recharge.
Qed.

Lemma X5_recharge_survives_a_failed_login_witness :
  response_of (run (login env_no_jwt ana_logs_in) (account 40)) =
    Ok (status_json 500 "Erro interno.") /\
  db_after (run (login env_no_jwt ana_logs_in) (account 40)) =
    update_recharge (CURRENT_DATE env_no_jwt) (id (ana 40)) (account 40) /\
  select_credits (db_after (run (login env_no_jwt ana_logs_in) (account 40)))
    (id (ana 40)) =
    map (fun _ => 100) (select_credits (account 40) (id (ana 40))).
Proof.
  exact (X5_recharge_survives_a_failed_login env_no_jwt ana_logs_in
           (account 40) (ana 40) [] eq_refl eq_refl eq_refl eq_refl eq_refl
           eq_refl).
Defined.

(** X6: a login that follows a recharging login of the same account does
    not recharge again as long as the days from the stored recharge date to
    its own clock stay below the window of the account's age: it writes
    nothing and answers the balance 100 without the renewal message. *)
Theorem X6_no_second_recharge env1 env2 body1 body2 db user rest token :
  db_fails env1 SelectUserByEmail = false ->
  select_users_by_email db (toLowerCase_trim env1 (body_email body1)) =
    user :: rest ->
  bcrypt_compare env1 (body_password body1) (password_hash user) = true ->
  recharge_due (age user)
    (diffDays (today env1) (new_Date (last_recharge_date user))) = true ->
  db_fails env1 UpdateRecharge = false ->
  toLowerCase_trim env2 (body_email body2) =
    toLowerCase_trim env1 (body_email body1) ->
  db_fails env2 SelectUserByEmail = false ->
  bcrypt_compare env2 (body_password body2) (password_hash user) = true ->
  jwt_sign env2 (id user) = Some token ->
  diffDays (today env2) (CURRENT_DATE env1) < window (age user) ->
  let db1 := db_after (run (login env1 body1) db) in
  run (login env2 body2) db1 =
    (Ok (login_json token
           (without_password_hash (recharged_row (CURRENT_DATE env1) user))
           None),
     {| store := db1; txn := None; log := [Query SelectUserByEmail] |}).
Proof.
  intros Hsel Hrow Hpw Hdue Hupd Hmail Hsel2 Hpw2 Hjwt2 Hdays. cbv zeta.
  rewrite (login_recharge_written env1 body1 db user rest Hsel Hrow Hpw Hdue Hupd).
  unfold db_after; simpl.
  apply (login_not_recharged env2 body2 _
           (recharged_row (CURRENT_DATE env1) user)
           (map (fun u => if id u =? id user
                          then recharged_row (CURRENT_DATE env1) u else u) rest)
           token Hsel2).
  - rewrite Hmail, select_users_by_email_update_recharge, Hrow. simpl.
    now rewrite Z.eqb_refl.
  - exact Hpw2.
  - simpl. rewrite recharge_due_window. apply Z.leb_gt. exact Hdays.
  - exact Hjwt2.
Qed.

Lemma X6_no_second_recharge_witness :
  run (login env_ok ana_logs_in)
    (db_after (run (login env_ok ana_logs_in) (account 40))) =
    (Ok (login_json "jwt"
           (without_password_hash (recharged_row (CURRENT_DATE env_ok) (ana 40)))
           None),
     {| store := db_after (run (login env_ok ana_logs_in) (account 40));
        txn := None; log := [Query SelectUserByEmail] |}).
Proof.
  assert (diffDays (today env_ok) (CURRENT_DATE env_ok) < window (age (ana 40)))
    as Hdays by (vm_compute; reflexivity).
  exact (X6_no_second_recharge env_ok env_ok ana_logs_in ana_logs_in
           (account 40) (ana 40) [] "jwt"
           eq_refl eq_refl eq_refl eq_refl eq_refl eq_refl eq_refl eq_refl
           eq_refl Hdays).
Defined.

(** X7: a row whose [last_recharge_date] is [NULL] counts as last recharged
    at the epoch: once the clock is more than 364 days past it, any login
    with the right password recharges the account, whatever its age. *)
Theorem X7_null_recharge_date_is_the_epoch env body db user rest :
  db_fails env SelectUserByEmail = false ->
  select_users_by_email db (toLowerCase_trim env (body_email body)) =
    user :: rest ->
  bcrypt_compare env (body_password body) (password_hash user) = true ->
  db_fails env UpdateRecharge = false ->
  last_recharge_date user = None ->
  364 * MS_PER_DAY < today env ->
  db_after (run (login env body) db) =
    update_recharge (CURRENT_DATE env) (id user) db.
Proof.
  intros Hsel Hrow Hpw Hupd Hnull Hnow.
  assert (recharge_due (age user)
            (diffDays (today env) (new_Date (last_recharge_date user))) = true)
    as Hdue.
  { rewrite Hnull. simpl new_Date. rewrite recharge_due_window.
    apply Z.leb_le.
    assert (365 <= diffDays (today env) 0) as H365.
    { apply diffDays_reaches. rewrite Z.sub_0_r.
      pose proof (Z.abs_eq (today env)). unfold MS_PER_DAY in *. lia. }
    unfold window. destruct (age user) as [n|]; [|exact H365].
    destruct (60 <? n); lia. }
  now rewrite (login_recharge_written env body db user rest Hsel Hrow Hpw Hdue Hupd).
Qed.

Lemma X7_null_recharge_date_is_the_epoch_witness :
  db_after (run (login env_later ana_logs_in)
              {| users := [newcomer]; transactions := [] |}) =
  update_recharge (CURRENT_DATE env_later) (id newcomer)
    {| users := [newcomer]; transactions := [] |}.
Proof.
  assert (364 * MS_PER_DAY < today env_later) as Hnow by reflexivity.
  exact (X7_null_recharge_date_is_the_epoch env_later ana_logs_in
           {| users := [newcomer]; transactions := [] |} newcomer []
           eq_refl eq_refl eq_refl eq_refl eq_refl Hnow).
Defined.

(** X8: because the elapsed days are rounded up, an account is due as soon
    as more than [window - 1] whole days separate the clock from the last
    recharge date: 179 days and one millisecond above 60 years of age, 364
    days and one millisecond otherwise; and because the difference is taken
    in absolute value, a recharge date in the future counts like one as far
    in the past. *)
Theorem X8_due_after_window_minus_one_days (a : option Z) (now last : Z) :
  (recharge_due a (diffDays now last) = true <->
   (window a - 1) * MS_PER_DAY < Z.abs (now - last)) /\
  diffDays now last = diffDays last now.
Proof.
  split.
  - rewrite recharge_due_window, Z.leb_le. apply diffDays_reaches.
  - unfold diffDays. f_equal. rewrite <- Z.abs_opp. f_equal. lia.
Qed.

(** X11: [/auth/login] answers every request, its exceptions being all
    caught; it writes only the recharge, only when the password has been
    accepted and the account is due, and that write changes no [id], email,
    password hash or age: a row is left as it was or becomes its recharged
    version. *)
Theorem X11_login_frame env body db :
  let r := run (login env body) db in
  (exists a, response_of r = Ok a) /\
  (db_after r = db \/
   exists user rest,
     select_users_by_email db (toLowerCase_trim env (body_email body)) =
       user :: rest /\
     bcrypt_compare env (body_password body) (password_hash user) = true /\
     recharge_due (age user)
       (diffDays (today env) (new_Date (last_recharge_date user))) = true /\
     db_after r = update_recharge (CURRENT_DATE env) (id user) db) /\
  Forall2 (fun u v => id v = id u /\ email v = email u /\
                      password_hash v = password_hash u /\ age v = age u /\
                      (v = u \/ v = recharged_row (CURRENT_DATE env) u))
    (users db) (users (db_after r)).
Proof.
  cbv zeta.
  assert (forall us : list user,
            Forall2 (fun u v => id v = id u /\ email v = email u /\
                        password_hash v = password_hash u /\ age v = age u /\
                        (v = u \/ v = recharged_row (CURRENT_DATE env) u)) us us)
    as Hsame.
  { intros us. apply users_unchanged. intros u. repeat split. now left. }
  unfold_login.
  destruct (db_fails env SelectUserByEmail); simpl;
    [split; [eexists; reflexivity|split; [now left|apply Hsame]]|].
  destruct (select_users_by_email db _) as [|user rest] eqn:Hrow; simpl;
    [split; [eexists; reflexivity|split; [now left|apply Hsame]]|].
  destruct (bcrypt_compare env _ _) eqn:Hpw; simpl;
    [|split; [eexists; reflexivity|split; [now left|apply Hsame]]].
  destruct (recharge_due _ _) eqn:Hdue; simpl.
  - destruct (db_fails env UpdateRecharge); simpl;
      [split; [eexists; reflexivity|split; [now left|apply Hsame]]|].
    destruct (jwt_sign env (id user)); simpl;
      (split; [eexists; reflexivity|]);
      (split; [right; exists user, rest; repeat split; assumption
              |apply users_update_recharge]).
  - destruct (jwt_sign env (id user)); simpl;
      (split; [eexists; reflexivity|split; [now left|apply Hsame]]).
Qed.

(** ** Requests served one after another *)

Lemma serve_cons c cs db :
  serve (c :: cs) db =
    (response_of (run (perform c) db) :: fst (serve cs (db_after (run (perform c) db))),
     snd (serve cs (db_after (run (perform c) db)))).
Proof.
  simpl. now destruct (serve cs (db_after (run (perform c) db))).
Qed.

Lemma unique_row_balance us i c rest :
  NoDup (map id us) ->
  map credits (filter (fun u => id u =? i) us) = c :: rest ->
  forall u, In u us -> id u = i -> credits u = c.
Proof.
  induction us as [|u0 us IH]; simpl; intros Hnd Hsel u Hin Hid; [contradiction|].
  apply NoDup_cons_iff in Hnd. destruct Hnd as [Hnotin Hnd'].
  destruct (id u0 =? i) eqn:E.
  - apply Z.eqb_eq in E. simpl in Hsel. injection Hsel as Hc _.
    destruct Hin as [->|Hin]; [exact Hc|].
    exfalso. apply Hnotin. rewrite E.
    apply in_map_iff. exists u. now split.
  - destruct Hin as [->|Hin].
    + apply Z.eqb_neq in E. contradiction.
    + now apply (IH Hnd' Hsel u Hin).
Qed.

Lemma ids_update_debit cost i db :
  map id (users (update_debit cost i db)) = map id (users db).
Proof.
  unfold update_debit; simpl.
  induction (users db) as [|u us IH]; simpl; [reflexivity|].
  rewrite IH. now destruct (id u =? i).
Qed.

Lemma ids_update_recharge d i db :
  map id (users (update_recharge d i db)) = map id (users db).
Proof.
  unfold update_recharge; simpl.
  induction (users db) as [|u us IH]; simpl; [reflexivity|].
  rewrite IH. now destruct (id u =? i).
Qed.

Lemma perform_keeps_sound_balances c db :
  sound_balances db -> sound_balances (db_after (run (perform c) db)).
Proof.
  intros [Hnd Hpos]. destruct c as [env body|env req|env req]; simpl perform.
  - destruct (login_store env body db) as [->|[user [rest [_ [_ ->]]]]];
      [now split|].
    split; [now rewrite ids_update_recharge|].
    unfold update_recharge; simpl. apply Forall_map.
    eapply Forall_impl; [|exact Hpos]. intros u Hu; simpl in Hu.
    destruct (id u =? id user); simpl; lia.
  - destruct (ai_generate_store env req db)
      as [[-> _]|[-> [c [rest [txt [Hrow [Hc _]]]]]]]; [now split|].
    unfold sound_balances.
    change (users (debited req db))
      with (users (update_debit (cost req) (req_user_id req) db)).
    split.
    + now rewrite ids_update_debit.
    + unfold update_debit; simpl. apply Forall_map.
      apply Forall_forall. intros u Hin.
      rewrite Forall_forall in Hpos. specialize (Hpos u Hin).
      destruct (id u =? req_user_id req) eqn:E; simpl; [|exact Hpos].
      apply Z.eqb_eq in E.
      rewrite (unique_row_balance (users db) (req_user_id req) c rest
                 Hnd Hrow u Hin E).
      lia.
  - unfold db_after. rewrite create_preference_store. now split.
Qed.

(** X12: when no two rows share an [id], any sequence of logins,
    generation requests and payment preferences served one after another,
    whatever their bodies and whatever fails in them, leaves no balance
    negative if none was. *)
Theorem X12_sequential_balances_stay_non_negative cs db :
  sound_balances db ->
  sound_balances (snd (serve cs db)).
Proof.
  revert db. induction cs as [|c cs IH]; intros db H; [exact H|].
  rewrite serve_cons. simpl snd. apply IH.
  now apply perform_keeps_sound_balances.
Qed.

Lemma X12_sequential_balances_stay_non_negative_witness :
  sound_balances
    (snd (serve [call_generate env_ok (consume 60); call_login env_ok ana_logs_in;
                 call_generate env_ok (consume 60);
                 call_generate env_ok (consume 60)]
            (account 100))).
Proof.
  assert (sound_balances (account 100)) as H.
  { split.
    - constructor; [intros []|constructor].
    - constructor; [discriminate|constructor]. }
  exact (X12_sequential_balances_stay_non_negative _ (account 100) H).
Defined.

Lemma div_step b k :
  0 < k -> k <= b -> (b - k) / k = b / k - 1.
Proof.
  intros Hk Hb. replace (b - k) with (b + (-1) * k) by lia.
  rewrite Z.div_add by lia. lia.
Qed.

(** X13: [n] requests of the same positive cost on one account, served one
    after another with the generation API and the database answering, are
    accepted while the balance lasts: the first [min n (b / cost)] succeed,
    the others are refused with 402, and the balance ends lowered by the
    cost of the successes. *)
Theorem X13_sequential_requests_until_exhausted env req n : forall db b,
  db_fails env SelectCredits = false ->
  debit_calls_ok env = true ->
  usable_text env req = true ->
  0 < cost req ->
  0 <= b ->
  select_credits db (req_user_id req) = [b] ->
  let k := Z.to_nat (Z.min (Z.of_nat n) (b / cost req)) in
  let served := serve (repeat (call_generate env req) n) db in
  count_answers is_generated (fst served) = k /\
  count_answers is_insufficient (fst served) = (n - k)%nat /\
  select_credits (snd served) (req_user_id req) =
    [b - cost req * Z.of_nat k].
Proof.
  induction n as [|n IH]; intros db b Hsel Hok Hu Hk Hb Hrow; cbv zeta.
  - replace (Z.to_nat (Z.min (Z.of_nat 0) (b / cost req))) with 0%nat by lia.
    simpl. rewrite Hrow. repeat split. f_equal. lia.
  - change (repeat (call_generate env req) (S n))
      with (call_generate env req :: repeat (call_generate env req) n).
    rewrite serve_cons. simpl perform. simpl fst. simpl snd.
    pose proof (Z.div_pos b (cost req) Hb Hk) as Hq.
    destruct (Z.lt_ge_cases b (cost req)) as [Hc|Hc].
    + rewrite (ai_generate_rejected env req db b [] Hsel Hrow Hc).
      unfold response_of, db_after; simpl fst; simpl snd; simpl store.
      specialize (IH db b Hsel Hok Hu Hk Hb Hrow). cbv zeta in IH.
      destruct IH as [IH1 [IH2 IH3]].
      assert (b / cost req = 0) as Hz by (apply Z.div_small; lia).
      rewrite Hz in *.
      replace (Z.to_nat (Z.min (Z.of_nat (S n)) 0)) with 0%nat by lia.
      replace (Z.to_nat (Z.min (Z.of_nat n) 0)) with 0%nat in * by lia.
      unfold count_answers in *. simpl filter. simpl List.length.
      rewrite IH1, IH2, IH3. repeat split. lia.
    + destruct (ai_generate_committed env req db b [] Hsel Hrow Hc Hu Hok)
        as [txt [_ ->]].
      unfold response_of, db_after; simpl fst; simpl snd; simpl store.
      assert (select_credits (debited req db) (req_user_id req) =
              [b - cost req]) as Hrow'.
      { now rewrite select_credits_debited, Hrow. }
      specialize (IH (debited req db) (b - cost req) Hsel Hok Hu Hk
                    ltac:(lia) Hrow').
      cbv zeta in IH. destruct IH as [IH1 [IH2 IH3]].
      rewrite (div_step b (cost req) Hk Hc) in *.
      assert (1 <= b / cost req) as Hq1.
      { apply Z.div_le_lower_bound; lia. }
      set (k' := Z.to_nat (Z.min (Z.of_nat n) (b / cost req - 1))) in *.
      assert (Z.to_nat (Z.min (Z.of_nat (S n)) (b / cost req)) = S k') as ->.
      { unfold k'. lia. }
      unfold count_answers in *. simpl filter. simpl List.length.
      rewrite IH1, IH2, IH3. repeat split; try lia; f_equal; lia.
Qed.

Lemma X13_sequential_requests_until_exhausted_witness :
  count_answers is_generated
    (fst (serve (repeat (call_generate env_ok (consume 10)) 10) (account 55))) =
    Z.to_nat (Z.min (Z.of_nat 10) (55 / cost (consume 10))).
Proof.
  assert (0 < cost (consume 10)) as Hk by reflexivity.
  assert (0 <= 55) as Hb by discriminate.
  exact (proj1 (X13_sequential_requests_until_exhausted env_ok (consume 10) 10
                  (account 55) 55 eq_refl eq_refl eq_refl Hk Hb eq_refl)).
Defined.

(** ** Interleaved requests *)

Lemma debitar_store env req c res s :
  (exists e, fst (debitar env req c res s) = Throw e /\
             store (snd (debitar env req c res s)) = store s) \/
  (fst (debitar env req c res s) = Ok (generate_json res (c - cost req)) /\
   store (snd (debitar env req c res s)) = debited req (store s)).
Proof.
  unfold debitar, pool_connect, client_begin, client_write, client_commit,
    client_rollback, client_release, try_catch_finally, try_catch, bind, ret,
    throw, record; simpl.
  destruct (db_fails env Connect); simpl; [left; eexists; split; reflexivity|].
  destruct (db_fails env Begin); simpl;
    [destruct (db_fails env Rollback); simpl; left; eexists; split; reflexivity|].
  destruct (db_fails env UpdateDebit); simpl;
    [destruct (db_fails env Rollback); simpl; left; eexists; split; reflexivity|].
  destruct (db_fails env InsertUsage); simpl;
    [destruct (db_fails env Rollback); simpl; left; eexists; split; reflexivity|].
  destruct (db_fails env Commit); simpl;
    [destruct (db_fails env Rollback); simpl; left; eexists; split; reflexivity|].
  right. split; reflexivity.
Qed.

Lemma advance_effect env req p s :
  let r := Concurrent.advance env req p s in
  (store (snd r) = store s /\
   answered_with_success (fst r) = answered_with_success p) \/
  (store (snd r) = debited req (store s) /\
   answered_with_success p = false /\
   answered_with_success (fst r) = true).
Proof.
  cbv zeta. destruct p as [|c|c res|a]; simpl.
  - left. unfold pool_select.
    destruct (db_fails env SelectCredits); simpl; [now split|].
    destruct (select_credits _ _) as [|c rest]; simpl; [now split|].
    destruct (c <? cost req); now split.
  - left. unfold fetch_text.
    destruct (gemini env (prompt_sent req)) as [txt|]; simpl; [|now split].
    destruct (falsy txt); now split.
  - destruct (debitar_store env req c res s) as [[e [He Hs]]|[Ha Hs]];
      destruct (debitar env req c res s) as [[a|e'] s']; simpl in *;
      try discriminate.
    + left. now split.
    + right. injection Ha as ->. now split.
  - left. now split.
Qed.

Lemma charged_refl i s : charged i 0 s s.
Proof.
  split; [|lia].
  rewrite <- (map_id (select_credits (store s) i)) at 1.
  apply map_ext. intros c. lia.
Qed.

Lemma charged_same_store i d s s' :
  d = 0 -> store s' = store s -> charged i d s s'.
Proof.
  intros -> H. unfold charged. rewrite H. apply charged_refl.
Qed.

Lemma charged_trans i d1 d2 s1 s2 s3 :
  charged i d1 s1 s2 -> charged i d2 s2 s3 -> charged i (d1 + d2) s1 s3.
Proof.
  intros [H1 L1] [H2 L2]. split; [|lia].
  rewrite H2, H1, map_map. apply map_ext. intros c. lia.
Qed.

Lemma charged_debited i req s s' :
  store s' = debited req (store s) ->
  charged i (if req_user_id req =? i then cost req else 0) s s'.
Proof.
  intros H. unfold charged. rewrite H, ledger_sum_debited.
  destruct (req_user_id req =? i) eqn:E.
  - apply Z.eqb_eq in E. subst i. split; [apply select_credits_debited|lia].
  - apply Z.eqb_neq in E. split; [|lia].
    rewrite select_credits_debited_other by congruence.
    rewrite <- (map_id (select_credits (store s) i)) at 1.
    apply map_ext. intros c. lia.
Qed.

Lemma spent_on_cons i t ths :
  spent_on i (t :: ths) =
  (if Concurrent.succeeded t && (req_user_id (Concurrent.th_req t) =? i)
   then cost (Concurrent.th_req t) else 0) + spent_on i ths.
Proof.
  unfold spent_on. simpl.
  destruct (Concurrent.succeeded t && _); simpl; lia.
Qed.

Lemma succeeded_answered env req p :
  Concurrent.succeeded
    {| Concurrent.th_env := env; Concurrent.th_req := req;
       Concurrent.th_pc := p |} = answered_with_success p.
Proof. reflexivity. Qed.

Lemma step_thread_charged i n : forall ths s,
  let r := Concurrent.step_thread n ths s in
  charged i (spent_on i (fst r) - spent_on i ths) s (snd r) /\
  (store (snd r) = store s \/
   exists req, store (snd r) = debited req (store s)).
Proof.
  induction n as [|n IH]; intros [|t ths] s; cbv zeta; simpl.
  - split; [now apply charged_same_store|now left].
  - pose proof (advance_effect (Concurrent.th_env t) (Concurrent.th_req t)
                  (Concurrent.th_pc t) s) as H.
    cbv zeta in H.
    destruct (Concurrent.advance _ _ _ s) as [p s'] eqn:E. simpl in *.
    rewrite !spent_on_cons, succeeded_answered.
    assert (Concurrent.succeeded t = answered_with_success (Concurrent.th_pc t))
      as -> by now destruct t.
    simpl Concurrent.th_req.
    destruct H as [[Hs Ha]|[Hs [Ha Ha']]].
    + rewrite Ha.
      split; [apply charged_same_store; [lia|exact Hs]|now left].
    + rewrite Ha, Ha'. simpl andb.
      replace (_ + spent_on i ths - (0 + spent_on i ths))
        with (if req_user_id (Concurrent.th_req t) =? i
              then cost (Concurrent.th_req t) else 0) by lia.
      split; [now apply charged_debited|right; eexists; exact Hs].
  - split; [now apply charged_same_store|now left].
  - specialize (IH ths s). cbv zeta in IH.
    destruct (Concurrent.step_thread n ths s) as [ths' s'] eqn:E. simpl in *.
    rewrite !spent_on_cons.
    replace (_ + spent_on i ths' - (_ + spent_on i ths))
      with (spent_on i ths' - spent_on i ths) by lia.
    exact IH.
Qed.

Lemma run_schedule_cons n sched ths s :
  Concurrent.run_schedule (n :: sched) ths s =
  Concurrent.run_schedule sched
    (fst (Concurrent.step_thread n ths s))
    (snd (Concurrent.step_thread n ths s)).
Proof.
  simpl. now destruct (Concurrent.step_thread n ths s).
Qed.

(** X14: under any interleaving of [/ai/generate] requests, whatever fails
    in them, every balance stays equal to the starting grant plus the
    account's transaction amounts if it was: the race on the credit check
    can overdraw an account but cannot separate the balance from its
    transaction rows. *)
Theorem X14_interleaving_keeps_ledger_sum grant sched : forall ths s,
  ledger_consistent grant (store s) ->
  ledger_consistent grant (store (snd (Concurrent.run_schedule sched ths s))).
Proof.
  induction sched as [|n sched IH]; intros ths s H; [exact H|].
  rewrite run_schedule_cons. apply IH.
  destruct (step_thread_charged 0 n ths s) as [_ [->|[req ->]]];
    [exact H|now apply ledger_consistent_debited].
Qed.

Lemma X14_interleaving_keeps_ledger_sum_witness :
  ledger_consistent 100
    (store (snd (Concurrent.run_schedule (Concurrent.all_check_first 2)
                   (requests 2 60) (initial account_used)))).
Proof.
  assert (ledger_consistent 100 (store (initial account_used))) as H.
  { constructor; [reflexivity|constructor]. }
  exact (X14_interleaving_keeps_ledger_sum 100 (Concurrent.all_check_first 2)
           (requests 2 60) (initial account_used) H).
Defined.

(** X15: under any interleaving, every success is paid for exactly once:
    the balances of an account, and the sum of its transaction amounts, end
    lower than they started by exactly the costs of the requests on that
    account that were answered with success during the schedule. *)
Theorem X15_every_success_is_charged_once i sched : forall ths s,
  let r := Concurrent.run_schedule sched ths s in
  select_credits (store (snd r)) i =
    map (fun c => c - (spent_on i (fst r) - spent_on i ths))
      (select_credits (store s) i) /\
  ledger_sum (store (snd r)) i =
    ledger_sum (store s) i - (spent_on i (fst r) - spent_on i ths).
Proof.
  change (forall ths s,
            let r := Concurrent.run_schedule sched ths s in
            charged i (spent_on i (fst r) - spent_on i ths) s (snd r)).
  induction sched as [|n sched IH]; intros ths s; cbv zeta.
  - simpl. apply charged_same_store; [lia|reflexivity].
  - rewrite run_schedule_cons.
    destruct (step_thread_charged i n ths s) as [H1 _].
    specialize (IH (fst (Concurrent.step_thread n ths s))
                  (snd (Concurrent.step_thread n ths s))).
    cbv zeta in IH.
    pose proof (charged_trans _ _ _ _ _ _ H1 IH) as H.
    match goal with
    | H : charged i ?d s ?s' |- charged i ?d' s ?s' =>
        replace d' with d by lia; exact H
    end.
Qed.



(** ** Registration, then login *)

Lemma select_users_by_email_insert_user row db e :
  select_users_by_email (insert_user row db) e =
  select_users_by_email db e ++ (if String.eqb (email row) e then [row] else []).
Proof.
  unfold select_users_by_email, insert_user; simpl.
  rewrite filter_app. reflexivity.
Qed.

(** X17: a user whose registration was inserted, under an email no row had,
    can log in with the same password and any spelling of the email that
    normalises to the stored one: the login answers a token signed for the
    new [id] and the stored, normalised email, with the granted balance, or
    100 when the schema's default recharge date makes the account due. *)
Theorem X17_registered_user_can_log_in
    env reg body db new_id granted date hashed env' typed_email token :
  bcrypt_hash reg (reg_password body) = Some hashed ->
  users_insert reg = inserted new_id granted date ->
  select_users_by_email db (toLowerCase_trim env (reg_email body)) = [] ->
  toLowerCase_trim env' typed_email = toLowerCase_trim env (reg_email body) ->
  db_fails env' SelectUserByEmail = false ->
  bcrypt_compare env' (reg_password body) hashed = true ->
  db_fails env' UpdateRecharge = false ->
  jwt_sign env' new_id = Some token ->
  let registered := run (register env reg body) db in
  let logged :=
    run (login env' {| body_email := typed_email;
                       body_password := reg_password body |})
      (db_after registered) in
  response_of registered =
    Ok (register_json new_id (toLowerCase_trim env (reg_email body)) granted) /\
  exists u msg,
    response_of logged = Ok (login_json token u msg) /\
    id u = new_id /\
    email u = toLowerCase_trim env (reg_email body) /\
    age u = reg_age body /\
    credits u =
      if recharge_due (reg_age body) (diffDays (today env') (new_Date date))
      then 100 else granted.
Proof.
  intros Hhash Hins Hfree Hmail Hsel Hpw Hupd Hjwt. cbv zeta.
  set (row := {| id := new_id;
                 email := toLowerCase_trim env (reg_email body);
                 password_hash := hashed; age := reg_age body;
                 credits := granted; last_recharge_date := date |}).
  assert (run (register env reg body) db =
          (Ok (register_json new_id (toLowerCase_trim env (reg_email body))
                 granted),
           {| store := insert_user row db; txn := None; log := [] |})) as ->.
  { unfold run, register. rewrite Hhash, Hins. reflexivity. }
  split; [reflexivity|].
  unfold db_after; simpl snd; simpl store.
  assert (select_users_by_email (insert_user row db)
            (toLowerCase_trim env'
               (body_email {| body_email := typed_email;
                              body_password := reg_password body |})) =
          [row]) as Hrow.
  { simpl body_email. rewrite Hmail, select_users_by_email_insert_user, Hfree.
    simpl email. now rewrite String.eqb_refl. }
  destruct (recharge_due (reg_age body)
              (diffDays (today env') (new_Date date))) eqn:Hdue.
  - rewrite (login_recharged env' _ (insert_user row db) row [] token
               Hsel Hrow Hpw Hdue Hupd Hjwt).
    eexists. eexists. split; [reflexivity|]. repeat split.
  - rewrite (login_not_recharged env' _ (insert_user row db) row [] token
               Hsel Hrow Hpw Hdue Hjwt).
    eexists. eexists. split; [reflexivity|]. repeat split.
Qed.

Lemma X17_registered_user_can_log_in_witness :
  response_of (run (register env_ok registrar_ok bia_registers) (account 40)) =
    Ok (register_json 2 "bia@sus.br" 100).
Proof.
  exact (proj1 (X17_registered_user_can_log_in env_ok registrar_ok
                  bia_registers (account 40) 2 100 None "senha" env_ok
                  "bia@sus.br" "jwt"
                  eq_refl eq_refl eq_refl eq_refl eq_refl eq_refl eq_refl
                  eq_refl)).
Defined.
